(** * AddLoraText: the lora browser dialog

    A model of [src/components/PromptForm/AddLoraText.tsx].

    The component is a React function component.  Its eight [useState]
    cells form the record [Hooks]; what lies outside the component but is
    read or written by it (the shared store, the network, the debounce
    timer, the clock, the callbacks handed in as props) forms the rest of a
    [World].  Every handler of the source is a function on worlds; an
    [await] splits [fetchTunes] into the part that runs up to the call of
    [getTunes] and the part that runs once the promise settles.

    Rendering follows React 18: the state updates made by one handler (or
    by one timer or promise callback) are committed together, the effects
    whose dependency arrays changed run after the commit, and every
    handler sees the values of the last commit.  Numbers are exact: the
    page counter is an integer, pixel measurements are rationals. *)

From Stdlib Require Import ZArith QArith.
From stdpp Require Import list strings.

Local Open Scope Z_scope.

(** ** Data *)

(** [interface Tune] *)
Record Tune : Type := mkTune {
  id : string;
  title : string;
  orig_images : list string
}.

(** [const ITEMS_PER_PAGE = 12] *)
Definition ITEMS_PER_PAGE : nat := 12.

(** Delay of the debounce timer, in milliseconds. *)
Definition DEBOUNCE_MS : Z := 300.

(** The text shown when a fetch failed. *)
Definition LOAD_FAILED : string := "Failed to load tunes. Please try again.".

(** The [useState] cells, with their initial values in [initialHooks]. *)
Record Hooks : Type := mkHooks {
  isOpen : bool;
  tunes : list Tune;
  loading : bool;
  error : option string;
  page : Z;
  hasMore : bool;
  searchQuery : string;
  debouncedSearch : string
}.

Definition initialHooks : Hooks :=
  {| isOpen := false; tunes := []; loading := false; error := None;
     page := 1; hasMore := true; searchQuery := ""; debouncedSearch := "" |}.

(** The setters.  [setTunes] and [setPage] take an updater, as the source
    calls them with [prev => ...]. *)
Definition setIsOpen (b : bool) (h : Hooks) : Hooks :=
  {| isOpen := b; tunes := tunes h; loading := loading h; error := error h;
     page := page h; hasMore := hasMore h; searchQuery := searchQuery h;
     debouncedSearch := debouncedSearch h |}.

Definition setTunes (f : list Tune -> list Tune) (h : Hooks) : Hooks :=
  {| isOpen := isOpen h; tunes := f (tunes h); loading := loading h;
     error := error h; page := page h; hasMore := hasMore h;
     searchQuery := searchQuery h; debouncedSearch := debouncedSearch h |}.

Definition setLoading (b : bool) (h : Hooks) : Hooks :=
  {| isOpen := isOpen h; tunes := tunes h; loading := b; error := error h;
     page := page h; hasMore := hasMore h; searchQuery := searchQuery h;
     debouncedSearch := debouncedSearch h |}.

Definition setError (e : option string) (h : Hooks) : Hooks :=
  {| isOpen := isOpen h; tunes := tunes h; loading := loading h; error := e;
     page := page h; hasMore := hasMore h; searchQuery := searchQuery h;
     debouncedSearch := debouncedSearch h |}.

Definition setPage (f : Z -> Z) (h : Hooks) : Hooks :=
  {| isOpen := isOpen h; tunes := tunes h; loading := loading h;
     error := error h; page := f (page h); hasMore := hasMore h;
     searchQuery := searchQuery h; debouncedSearch := debouncedSearch h |}.

Definition setHasMore (b : bool) (h : Hooks) : Hooks :=
  {| isOpen := isOpen h; tunes := tunes h; loading := loading h;
     error := error h; page := page h; hasMore := b;
     searchQuery := searchQuery h; debouncedSearch := debouncedSearch h |}.

Definition setSearchQuery (s : string) (h : Hooks) : Hooks :=
  {| isOpen := isOpen h; tunes := tunes h; loading := loading h;
     error := error h; page := page h; hasMore := hasMore h;
     searchQuery := s; debouncedSearch := debouncedSearch h |}.

Definition setDebouncedSearch (s : string) (h : Hooks) : Hooks :=
  {| isOpen := isOpen h; tunes := tunes h; loading := loading h;
     error := error h; page := page h; hasMore := hasMore h;
     searchQuery := searchQuery h; debouncedSearch := s |}.

(** [interface AddLoraTextProps]: both callbacks are optional; what a
    callback does is the caller's business, the model records that it was
    given and, in [calls], each call made to it. *)
Record Props : Type := mkProps {
  onSelect : bool;
  onRemove : bool
}.

(** Calls that leave the component. *)
Inductive Call : Type :=
  | CallOnSelect (tune : Tune)
  | CallOnRemove (loraText : string)
  | ConsoleError (message err : string).

(** A call [getTunes(page, ITEMS_PER_PAGE, debouncedSearch)] whose promise
    has not settled.  The continuation of [fetchTunes] reads [page] from
    its closure, so the request keeps the value it was made with. *)
Record Request : Type := mkRequest {
  req_page : Z;
  req_limit : nat;
  req_search : string
}.

(** The timer armed by the debounce effect: when it may fire, and the
    [searchQuery] its callback closed over. *)
Record Timer : Type := mkTimer {
  deadline : Z;
  captured : string
}.

Record World : Type := mkWorld {
  props : Props;
  hooks : Hooks;
  loraTextList : list string;
  inflight : list Request;
  timer : option Timer;
  clock : Z;
  calls : list Call
}.

Definition withHooks (f : Hooks -> Hooks) (w : World) : World :=
  {| props := props w; hooks := f (hooks w); loraTextList := loraTextList w;
     inflight := inflight w; timer := timer w; clock := clock w;
     calls := calls w |}.

(** [setLoraTextList] of the store. *)
Definition setLoraTextList (l : list string) (w : World) : World :=
  {| props := props w; hooks := hooks w; loraTextList := l;
     inflight := inflight w; timer := timer w; clock := clock w;
     calls := calls w |}.

Definition withInflight (f : list Request -> list Request) (w : World) : World :=
  {| props := props w; hooks := hooks w; loraTextList := loraTextList w;
     inflight := f (inflight w); timer := timer w; clock := clock w;
     calls := calls w |}.

Definition withTimer (t : option Timer) (w : World) : World :=
  {| props := props w; hooks := hooks w; loraTextList := loraTextList w;
     inflight := inflight w; timer := t; clock := clock w;
     calls := calls w |}.

Definition withClock (t : Z) (w : World) : World :=
  {| props := props w; hooks := hooks w; loraTextList := loraTextList w;
     inflight := inflight w; timer := timer w; clock := t;
     calls := calls w |}.

Definition call (c : Call) (w : World) : World :=
  {| props := props w; hooks := hooks w; loraTextList := loraTextList w;
     inflight := inflight w; timer := timer w; clock := clock w;
     calls := calls w ++ [c] |}.

(** [cb?.(x)]: the call is made when the callback was given. *)
Definition optionalCall (given : bool) (c : Call) (w : World) : World :=
  if given then call c w else w.

(** ** [fetchTunes] *)

(** How the promise of [getTunes] settles. *)
Inductive Outcome : Type :=
  | Fulfilled (response : list Tune)
  | Rejected (err : string).

(** Up to the [await]: the guard, [setLoading(true)], [setError(null)] and
    the call of [getTunes] with the [page] and [debouncedSearch] of the
    render the function belongs to. *)
Definition fetchTunes (w : World) : World :=
  if loading (hooks w) then w
  else
    let request :=
      {| req_page := page (hooks w); req_limit := ITEMS_PER_PAGE;
         req_search := debouncedSearch (hooks w) |} in
    withInflight (fun rs => rs ++ [request])
      (withHooks (fun h => setError None (setLoading true h)) w).

(** After the [await]: the rest of the [try] block, the [catch] block and
    the [finally] block.  Nothing escapes: either way the function ends
    with [setLoading(false)]. *)
Definition fetchTunes_resume (r : Request) (o : Outcome) (w : World) : World :=
  match o with
  | Fulfilled response =>
      withHooks (fun h =>
        setLoading false
          (setHasMore ((0 <? length response)%nat
                       && (length response =? ITEMS_PER_PAGE)%nat)
             (setTunes (fun prev => if req_page r =? 1 then response
                                    else prev ++ response) h))) w
  | Rejected err =>
      withHooks (setLoading false)
        (call (ConsoleError "Error fetching tunes:" err)
           (withHooks (setError (Some LOAD_FAILED)) w))
  end.

(** ** Effects *)

(** [useEffect(..., [searchQuery])]: the cleanup clears the timer of the
    previous run, then a new one is armed. *)
Definition debounceEffect (w : World) : World :=
  withTimer (Some {| deadline := clock w + DEBOUNCE_MS;
                     captured := searchQuery (hooks w) |}) w.

(** The callback handed to [setTimeout]. *)
Definition debounceCallback (q : string) (w : World) : World :=
  withHooks (fun h =>
    setTunes (fun _ => [])
      (setPage (fun _ => 1)
         (setDebouncedSearch q h))) w.

(** [useEffect(() => { fetchTunes(); }, [page, debouncedSearch])] *)
Definition fetchEffect (w : World) : World := fetchTunes w.

(** After a commit the effects run whose dependencies differ from those of
    the previous commit [prev], in the order the source declares them. *)
Definition runEffects (prev : Hooks) (w : World) : World :=
  let w1 :=
    if String.eqb (searchQuery prev) (searchQuery (hooks w)) then w
    else debounceEffect w in
  if (page prev =? page (hooks w1))
     && String.eqb (debouncedSearch prev) (debouncedSearch (hooks w1))
  then w1 else fetchEffect w1.

(** A handler [f] run on the committed world [w], followed by the effects
    its updates set off. *)
Definition commit (f : World -> World) (w : World) : World :=
  runEffects (hooks w) (f w).

(** Mounting: the first render, after which both effects run. *)
Definition mount (p : Props) (store : list string) (now : Z) : World :=
  fetchEffect
    (debounceEffect
       {| props := p; hooks := initialHooks; loraTextList := store;
          inflight := []; timer := None; clock := now; calls := [] |}).

(** ** Handlers *)

(** The three measurements [handleScroll] reads off its target. *)
Record ScrollMetrics : Type := mkScroll {
  scrollTop : Q;
  clientHeight : Q;
  scrollHeight : Q
}.

(** [scrollHeight - scrollTop <= clientHeight * 1.5] *)
Definition nearBottom (m : ScrollMetrics) : bool :=
  Qle_bool (scrollHeight m - scrollTop m)%Q (clientHeight m * (3 # 2))%Q.

Definition handleScroll (m : ScrollMetrics) (w : World) : World :=
  if nearBottom m && hasMore (hooks w) && negb (loading (hooks w))
  then withHooks (setPage (fun prev => prev + 1)) w
  else w.

(** The template literal [`<lora:${tune.id}:1>`]. *)
Definition loraText (tune : Tune) : string :=
  "<lora:" +:+ id tune +:+ ":1>".

Definition handleSelect (tune : Tune) (w : World) : World :=
  withHooks (setIsOpen false)
    (optionalCall (onSelect (props w)) (CallOnSelect tune)
       (setLoraTextList (loraTextList w ++ [loraText tune]) w)).

(** [Array.prototype.filter] with a predicate that also reads the index. *)
Fixpoint filterIndexed {A : Type} (f : A -> nat -> bool) (i : nat)
    (l : list A) : list A :=
  match l with
  | [] => []
  | x :: l' =>
      if f x i then x :: filterIndexed f (S i) l'
      else filterIndexed f (S i) l'
  end.

(** The [onClick] of the remove button of entry [index], which is rendered
    for every index of [loraTextList]; [text] is [loraTextList[index]]. *)
Definition handleRemove (index : nat) (w : World) : World :=
  match loraTextList w !! index with
  | Some text =>
      optionalCall (onRemove (props w)) (CallOnRemove text)
        (setLoraTextList
           (filterIndexed (fun _ i => negb (i =? index)%nat) 0 (loraTextList w))
           w)
  | None => w
  end.

(** [onChange] of the search input. *)
Definition handleChange (value : string) (w : World) : World :=
  withHooks (setSearchQuery value) w.

(** [onOpenChange] of the dialog. *)
Definition handleOpenChange (open : bool) (w : World) : World :=
  withHooks (setIsOpen open) w.

(** ** Events *)

(** What can happen to a mounted component.  The dialog content (search
    input, scroll container, retry button, cards) exists only while the
    dialog is open; the retry button only while [error] is set; a card
    only for an entry of [tunes]; a remove button only for an index of
    [loraTextList]; the timer fires no earlier than its deadline; a
    promise settles only if its request is in flight. *)
Inductive Event : Type :=
  | OpenChange (open : bool)
  | Change (value : string)
  | Scroll (m : ScrollMetrics)
  | ClickRetry
  | ClickCard (k : nat)
  | ClickRemove (index : nat)
  | Elapse (ms : Z)
  | TimerFires
  | Settles (k : nat) (o : Outcome).

Definition step (e : Event) (w : World) : option World :=
  match e with
  | OpenChange open => Some (commit (handleOpenChange open) w)
  | Change value =>
      if isOpen (hooks w) then Some (commit (handleChange value) w) else None
  | Scroll m =>
      if isOpen (hooks w) then Some (commit (handleScroll m) w) else None
  | ClickRetry =>
      if isOpen (hooks w) && bool_decide (is_Some (error (hooks w)))
      then Some (commit fetchTunes w) else None
  | ClickCard k =>
      if isOpen (hooks w) then
        tune ← tunes (hooks w) !! k; Some (commit (handleSelect tune) w)
      else None
  | ClickRemove index =>
      if bool_decide (index < length (loraTextList w))%nat
      then Some (commit (handleRemove index) w) else None
  | Elapse ms =>
      if 0 <=? ms then Some (withClock (clock w + ms) w) else None
  | TimerFires =>
      t ← timer w;
      if deadline t <=? clock w
      then Some (commit (debounceCallback (captured t)) (withTimer None w))
      else None
  | Settles k o =>
      r ← inflight w !! k;
      Some (commit (fetchTunes_resume r o) (withInflight (delete k) w))
  end.

(** A run of events; [None] when one of them cannot happen. *)
Fixpoint run (es : list Event) (w : World) : option World :=
  match es with
  | [] => Some w
  | e :: es' => w' ← step e w; run es' w'
  end.

(** The worlds a mounted component can be in. *)
Inductive reachable : World -> Prop :=
  | reachable_mount p store now : reachable (mount p store now)
  | reachable_step e w w' :
      reachable w -> step e w = Some w' -> reachable w'.

(** ** The in-flight invariant *)

(** While [loading] is set exactly one request is in flight, no error is
    shown, and the request was made for the current page unless the
    debounce callback has since reset the page and emptied the list; while
    [loading] is clear nothing is in flight. *)
Definition oneFetch (w : World) : Prop :=
  if loading (hooks w) then
    exists r, inflight w = [r] /\ error (hooks w) = None /\
      (req_page r = page (hooks w) \/
       (page (hooks w) = 1 /\ tunes (hooks w) = []))
  else inflight w = [].

(** The timer, when armed, closed over the current raw search term. *)
Definition timerFresh (w : World) : Prop :=
  forall t, timer w = Some t -> captured t = searchQuery (hooks w).

(** ** Worlds and runs the statements below refer to *)

(** A reading with the remaining distance equal to one and a half times
    the visible height. *)
Definition onTheLine : ScrollMetrics :=
  {| scrollTop := 0; clientHeight := 200; scrollHeight := 300 |}.

(** A page of [n] copies of one tune. *)
Definition pageOf (n : nat) : list Tune := replicate n (mkTune "t" "T" []).

(** The events of fetching further pages one after the other: a scroll
    near the bottom, then the response to the request it set off. *)
Fixpoint nextPages (m : ScrollMetrics) (responses : list (list Tune))
    : list Event :=
  match responses with
  | [] => []
  | response :: rest =>
      Scroll m :: Settles 0 (Fulfilled response) :: nextPages m rest
  end.

(** Every response but the last holds a full page: the only way to a
    next page is a scroll with [hasMore] set. *)
Fixpoint fullBeforeLast (responses : list (list Tune)) : Prop :=
  match responses with
  | [] => True
  | response :: rest =>
      match rest with
      | [] => True
      | _ :: _ => length response = ITEMS_PER_PAGE /\ fullBeforeLast rest
      end
  end.

(** The open dialog showing a full first page, nothing in flight. *)
Definition firstPageShown : World :=
  {| props := mkProps false false;
     hooks := {| isOpen := true; tunes := pageOf 12; loading := false;
                 error := None; page := 1; hasMore := true;
                 searchQuery := ""; debouncedSearch := "" |};
     loraTextList := []; inflight := [];
     timer := Some (mkTimer 300 ""); clock := 0; calls := [] |}.

(** The request [fetchTunes] would make in world [w]. *)
Definition currentRequest (w : World) : Request :=
  {| req_page := page (hooks w); req_limit := ITEMS_PER_PAGE;
     req_search := debouncedSearch (hooks w) |}.


(** ** What is rendered *)

(** A card of the grid: the [src] and [alt] of its image and its title.
    [tune.orig_images[0]] is undefined for a tune without images. *)
Record CardView : Type := mkCard {
  card_src : option string;
  card_alt : string;
  card_title : string
}.

(** The content of the dialog: the value of the search input, the error
    text with its retry button, the cards and the spinner. *)
Record DialogView : Type := mkDialog {
  inputValue : string;
  errorShown : option string;
  cards : list CardView;
  spinnerShown : bool
}.

(** The component as rendered: the count in the label, the dialog content
    (mounted only while the dialog is open) and the row of chips (rendered
    only for a list that is not empty). *)
Record View : Type := mkView {
  labelCount : nat;
  dialogContent : option DialogView;
  chipRow : option (list string)
}.

(** [{error && ...}]: the empty string is as falsy as [null]. *)
Definition truthy (e : option string) : option string :=
  match e with
  | Some text => if String.eqb text "" then None else Some text
  | None => None
  end.

Definition renderCard (tune : Tune) : CardView :=
  {| card_src := head (orig_images tune); card_alt := title tune;
     card_title := title tune |}.

Definition render (w : World) : View :=
  {| labelCount := length (loraTextList w);
     dialogContent :=
       if isOpen (hooks w) then
         Some {| inputValue := searchQuery (hooks w);
                 errorShown := truthy (error (hooks w));
                 cards := renderCard <$> tunes (hooks w);
                 spinnerShown := loading (hooks w) |}
       else None;
     chipRow :=
       if (0 <? length (loraTextList w))%nat then Some (loraTextList w)
       else None |}.

(** ** Runs and counts the further statements refer to *)

(** Typing: each key stroke puts a value into the search input and is
    followed by a pause, in milliseconds. *)
Fixpoint typing (keys : list (string * Z)) : list Event :=
  match keys with
  | [] => []
  | (value, pause) :: rest => Change value :: Elapse pause :: typing rest
  end.

(** A burst: every key stroke changes the term in the input, and every
    pause is shorter than the debounce delay. *)
Fixpoint burst (current : string) (keys : list (string * Z)) : Prop :=
  match keys with
  | [] => True
  | (value, pause) :: rest =>
      value <> current /\ 0 <= pause < DEBOUNCE_MS /\ burst value rest
  end.

(** The term in the input after typing [keys] over [current]. *)
Fixpoint lastTyped (current : string) (keys : list (string * Z)) : string :=
  match keys with
  | [] => current
  | (value, _) :: rest => lastTyped value rest
  end.

Definition isRejection (e : Event) : bool :=
  match e with
  | Settles _ (Rejected _) => true
  | _ => false
  end.

Definition isConsoleError (c : Call) : bool :=
  match c with
  | ConsoleError _ _ => true
  | _ => false
  end.

Definition isClickCard (e : Event) : bool :=
  match e with
  | ClickCard _ => true
  | _ => false
  end.

Definition isClickRemove (e : Event) : bool :=
  match e with
  | ClickRemove _ => true
  | _ => false
  end.

(** Every call made to a callback went to a callback that was given, and
    every line on the console is the one of [fetchTunes]. *)
Definition callsAllowed (w : World) : Prop :=
  forall c, c ∈ calls w ->
    match c with
    | CallOnSelect _ => onSelect (props w) = true
    | CallOnRemove _ => onRemove (props w) = true
    | ConsoleError message _ => message = "Error fetching tunes:"
    end.

(** The page counter and the pages asked for start at 1, and every
    request asks for [ITEMS_PER_PAGE] items. *)
Definition pagesFromOne (w : World) : Prop :=
  1 <= page (hooks w) /\
  forall r, r ∈ inflight w -> 1 <= req_page r /\ req_limit r = ITEMS_PER_PAGE.

(** [error] holds nothing or the one text of the [catch] block. *)
Definition errorText (w : World) : Prop :=
  error (hooks w) = None \/ error (hooks w) = Some LOAD_FAILED.

(** ** Handlers as closures of a render *)

(** In the source [loading], [page], [debouncedSearch] and [hasMore] are
    constants of the render a handler belongs to.  [fetchTunesOf render]
    and [handleScrollOf render] are [fetchTunes] and [handleScroll] as
    created by the render that saw the cells [render]; they act on the
    world as it is when they are called.  [fetchTunes] and [handleScroll]
    above are the handlers of the latest render. *)
Definition fetchTunesOf (render : Hooks) (w : World) : World :=
  if loading render then w
  else
    let request :=
      {| req_page := page render; req_limit := ITEMS_PER_PAGE;
         req_search := debouncedSearch render |} in
    withInflight (fun rs => rs ++ [request])
      (withHooks (fun h => setError None (setLoading true h)) w).

Definition handleScrollOf (render : Hooks) (m : ScrollMetrics) (w : World)
    : World :=
  if nearBottom m && hasMore render && negb (loading render)
  then withHooks (setPage (fun prev => prev + 1)) w
  else w.

(** Mounting under React's StrictMode (development builds): the effects
    of the first render run, their cleanups run, and the effects run once
    more; both runs belong to the first render, in which [loading] is
    clear. *)
Definition mountStrict (p : Props) (store : list string) (now : Z) : World :=
  fetchTunesOf initialHooks
    (debounceEffect (withTimer None (mount p store now))).

(** ** Proofs *)

Ltac world w :=
  let p := fresh "p" in let h := fresh "h" in let store := fresh "store" in
  let rs := fresh "rs" in let tm := fresh "tm" in let now := fresh "now" in
  let cs := fresh "cs" in
  destruct w as [p h store rs tm now cs]; destruct h; simpl in *.

Lemma fetchTunes_loading w :
  loading (hooks w) = true -> fetchTunes w = w.
Proof. intros H. unfold fetchTunes. by rewrite H. Qed.

Lemma fetchTunes_idle w :
  loading (hooks w) = false ->
  fetchTunes w =
    withInflight (fun rs => rs ++ [mkRequest (page (hooks w)) ITEMS_PER_PAGE
                                     (debouncedSearch (hooks w))])
      (withHooks (fun h => setError None (setLoading true h)) w).
Proof. intros H. unfold fetchTunes. by rewrite H. Qed.

Lemma oneFetch_fetchTunes w : oneFetch w -> oneFetch (fetchTunes w).
Proof.
  destruct (loading (hooks w)) eqn:L.
  - by rewrite fetchTunes_loading.
  - rewrite fetchTunes_idle by done. unfold oneFetch. rewrite L.
    intros H. simpl. rewrite H. simpl. eauto.
Qed.

Lemma oneFetch_runEffects prev w : oneFetch w -> oneFetch (runEffects prev w).
Proof.
  intros H. unfold runEffects, fetchEffect.
  set (w1 := if String.eqb _ _ then w else debounceEffect w).
  assert (oneFetch w1) as H1 by (subst w1; by destruct (String.eqb _ _)).
  destruct (_ && _); [done | by apply oneFetch_fetchTunes].
Qed.

Lemma oneFetch_commit f w :
  oneFetch (f w) -> oneFetch (commit f w).
Proof. apply oneFetch_runEffects. Qed.

Lemma oneFetch_mount p store now : oneFetch (mount p store now).
Proof. unfold oneFetch. simpl. eauto. Qed.

Lemma oneFetch_handleScroll m w : oneFetch w -> oneFetch (handleScroll m w).
Proof.
  unfold handleScroll. destruct (nearBottom m); [|done].
  world w. destruct hasMore0, loading0; simpl; done.
Qed.

Lemma oneFetch_handleSelect tune w : oneFetch w -> oneFetch (handleSelect tune w).
Proof. unfold handleSelect, optionalCall. world w. by destruct (onSelect p). Qed.

Lemma oneFetch_handleRemove index w : oneFetch w -> oneFetch (handleRemove index w).
Proof.
  unfold handleRemove, optionalCall. destruct (_ !! _); [|done].
  world w. by destruct (onRemove p).
Qed.

Lemma oneFetch_debounceCallback q w :
  oneFetch w -> oneFetch (debounceCallback q (withTimer None w)).
Proof.
  unfold oneFetch. world w. destruct loading0; [|done].
  intros (r & -> & -> & _). exists r. auto.
Qed.

Lemma oneFetch_resume k r o w :
  inflight w !! k = Some r ->
  oneFetch w -> oneFetch (fetchTunes_resume r o (withInflight (delete k) w)).
Proof.
  unfold oneFetch. world w. intros Hk. destruct loading0.
  - intros (r' & -> & _). destruct k as [|k]; [|done].
    by destruct o.
  - intros ->. done.
Qed.

Lemma oneFetch_step e w w' : step e w = Some w' -> oneFetch w -> oneFetch w'.
Proof.
  intros Hs H. destruct e; simpl in Hs.
  - injection Hs as <-. apply oneFetch_commit. by world w.
  - destruct (isOpen _); [|done]. injection Hs as <-.
    apply oneFetch_commit. by world w.
  - destruct (isOpen _); [|done]. injection Hs as <-.
    by apply oneFetch_commit, oneFetch_handleScroll.
  - destruct (_ && _); [|done]. injection Hs as <-.
    by apply oneFetch_commit, oneFetch_fetchTunes.
  - destruct (isOpen _); [|done].
    destruct (tunes _ !! _) as [tune|]; [|done]. injection Hs as <-.
    by apply oneFetch_commit, oneFetch_handleSelect.
  - destruct (bool_decide _); [|done]. injection Hs as <-.
    by apply oneFetch_commit, oneFetch_handleRemove.
  - destruct (0 <=? ms); [|done]. injection Hs as <-. by world w.
  - destruct (timer w) as [t|]; [|done]. simpl in Hs.
    destruct (deadline t <=? clock w); [|done]. injection Hs as <-.
    unfold commit. apply oneFetch_runEffects. by apply oneFetch_debounceCallback.
  - destruct (inflight w !! k) as [r|] eqn:Hk; [|done]. injection Hs as <-.
    unfold commit. apply oneFetch_runEffects. by apply oneFetch_resume.
Qed.

Lemma reachable_oneFetch w : reachable w -> oneFetch w.
Proof.
  induction 1 as [p store now | e w w' _ IH Hs].
  - apply oneFetch_mount.
  - by eapply oneFetch_step.
Qed.


(** ** When effects run *)

Lemma runEffects_same prev w :
  searchQuery prev = searchQuery (hooks w) ->
  page prev = page (hooks w) ->
  debouncedSearch prev = debouncedSearch (hooks w) ->
  runEffects prev w = w.
Proof.
  intros Hq Hp Hd. unfold runEffects.
  rewrite Hq, String.eqb_refl. cbv zeta.
  by rewrite Hp, Hd, String.eqb_refl, Z.eqb_refl.
Qed.

Lemma runEffects_fetch prev w :
  searchQuery prev = searchQuery (hooks w) ->
  page prev <> page (hooks w) \/ debouncedSearch prev <> debouncedSearch (hooks w) ->
  runEffects prev w = fetchTunes w.
Proof.
  intros Hq Hpd. unfold runEffects, fetchEffect.
  rewrite Hq, String.eqb_refl. cbv zeta.
  destruct Hpd as [Hp|Hd].
  - apply Z.eqb_neq in Hp. by rewrite Hp.
  - apply String.eqb_neq in Hd. rewrite Hd. by rewrite andb_false_r.
Qed.

(** With [loading] set, the effects change nothing but the timer. *)
Lemma runEffects_loading prev w :
  loading (hooks w) = true ->
  hooks (runEffects prev w) = hooks w /\
  inflight (runEffects prev w) = inflight w.
Proof.
  intros L. unfold runEffects, fetchEffect.
  set (w1 := if String.eqb _ _ then w else debounceEffect w).
  assert (hooks w1 = hooks w /\ inflight w1 = inflight w) as [Hh Hi]
    by (subst w1; by destruct (String.eqb _ _)).
  destruct (_ && _); [done|].
  rewrite fetchTunes_loading; [done | by rewrite Hh].
Qed.

Lemma step_ClickRetry w w' :
  step ClickRetry w = Some w' -> w' = fetchTunes w.
Proof.
  simpl. destruct (_ && _); [|done]. intros [= <-].
  unfold commit. apply runEffects_same; unfold fetchTunes;
    by destruct (loading (hooks w)).
Qed.

Lemma step_Settles k o w w' :
  step (Settles k o) w = Some w' ->
  exists r, inflight w !! k = Some r /\
    w' = fetchTunes_resume r o (withInflight (delete k) w).
Proof.
  simpl. destruct (inflight w !! k) as [r|]; [|done]. intros [= <-].
  exists r. split; [done|].
  unfold commit. apply runEffects_same; by destruct o.
Qed.

Lemma step_Scroll m w w' :
  step (Scroll m) w = Some w' ->
  isOpen (hooks w) = true /\
  w' = if nearBottom m && hasMore (hooks w) && negb (loading (hooks w))
       then fetchTunes (withHooks (setPage (fun prev => prev + 1)) w)
       else w.
Proof.
  simpl. destruct (isOpen (hooks w)); [|done]. intros [= <-]. split; [done|].
  unfold commit, handleScroll. destruct (_ && _).
  - apply runEffects_fetch; [done|]. left. simpl. lia.
  - by apply runEffects_same.
Qed.

(** ** The in-flight guard *)

(** C7, amended: a call of [fetchTunes] is a no-op, issuing no request
    and changing no state, whenever [loading] is set in the render the
    call belongs to.  When every trigger belongs to the latest render
    (every event is handled after the render that followed the one
    before, and the fetch effect runs once for each commit, as [step] and
    [mount] have it), no event other than the settling of the outstanding
    promise changes the requests in flight or clears [loading], and in
    every world reached that way at most one request is in flight, one
    being in flight exactly when [loading] is set. *)
Theorem fetchTunes_guard_per_render :
  (forall render w, loading render = true -> fetchTunesOf render w = w) /\
  (forall w, fetchTunes w = fetchTunesOf (hooks w) w) /\
  (forall w e w',
     loading (hooks w) = true -> step e w = Some w' ->
     (forall k o, e <> Settles k o) ->
     inflight w' = inflight w /\ loading (hooks w') = true) /\
  (forall w, reachable w ->
     (length (inflight w) <= 1)%nat /\
     (loading (hooks w) = true <-> inflight w <> [])).
Proof.
  split; [|split; [|split]].
  - intros render w L. unfold fetchTunesOf. by rewrite L.
  - reflexivity.
  - intros w e w' L Hs He.
    assert (forall f, loading (hooks (f w)) = true ->
                      inflight (f w) = inflight w ->
                      inflight (commit f w) = inflight w /\
                      loading (hooks (commit f w)) = true) as Hc.
    { intros f Lf Hf. unfold commit.
      destruct (runEffects_loading (hooks w) (f w) Lf) as [-> ->]. done. }
    destruct e; simpl in Hs.
    + injection Hs as <-. by apply Hc.
    + destruct (isOpen _); [|done]. injection Hs as <-. by apply Hc.
    + destruct (isOpen _); [|done]. injection Hs as <-.
      apply Hc; unfold handleScroll; rewrite L, andb_false_r; done.
    + destruct (_ && _); [|done]. injection Hs as <-.
      apply Hc; by rewrite fetchTunes_loading.
    + destruct (isOpen _); [|done].
      destruct (tunes _ !! _) as [tune|]; [|done]. injection Hs as <-.
      apply Hc; unfold handleSelect, optionalCall;
        by destruct (onSelect (props w)).
    + destruct (bool_decide _); [|done]. injection Hs as <-.
      apply Hc; unfold handleRemove, optionalCall;
        destruct (_ !! _); try done; by destruct (onRemove (props w)).
    + destruct (0 <=? ms); [|done]. by injection Hs as <-.
    + destruct (timer w) as [t|]; [|done]. simpl in Hs.
      destruct (deadline t <=? clock w); [|done]. injection Hs as <-.
      unfold commit.
      destruct (runEffects_loading (hooks (withTimer None w))
                  (debounceCallback (captured t) (withTimer None w)) L)
        as [-> ->]. done.
    + by destruct (He k o).
  - intros w Hw. apply reachable_oneFetch in Hw. unfold oneFetch in Hw.
    destruct (loading (hooks w)).
    + destruct Hw as (r & -> & _). simpl. split; [lia|]. done.
    + rewrite Hw. simpl. split; [lia|]. done.
Qed.

Lemma fetchTunes_guard_per_render_witness :
  fetchTunesOf (hooks (mount (mkProps true true) [] 0))
    (mount (mkProps true true) [] 0) = mount (mkProps true true) [] 0
  /\ inflight (mount (mkProps true true) [] 0)
     = [mkRequest 1 ITEMS_PER_PAGE ""].
Proof.
  split.
  - apply (proj1 fetchTunes_guard_per_render). reflexivity.
  - reflexivity.
Defined.

(** C7 as stated fails for two triggers of one render: after the fetch
    effect of the first render has run, [loading] is set and one request
    is in flight, yet a second call of the [fetchTunes] of that first
    render, in which [loading] is clear, changes the world and leaves two
    requests in flight; mounting under StrictMode does just that. *)
Lemma two_triggers_from_one_render :
  loading (hooks (mount (mkProps false false) [] 0)) = true /\
  inflight (mount (mkProps false false) [] 0)
    = [mkRequest 1 ITEMS_PER_PAGE ""] /\
  fetchTunesOf initialHooks (mount (mkProps false false) [] 0)
    <> mount (mkProps false false) [] 0 /\
  inflight (fetchTunesOf initialHooks (mount (mkProps false false) [] 0))
    = [mkRequest 1 ITEMS_PER_PAGE ""; mkRequest 1 ITEMS_PER_PAGE ""] /\
  inflight (mountStrict (mkProps false false) [] 0)
    = [mkRequest 1 ITEMS_PER_PAGE ""; mkRequest 1 ITEMS_PER_PAGE ""].
Proof.
  split; [reflexivity|]. split; [reflexivity|]. split.
  - intros H. apply (f_equal inflight) in H. discriminate H.
  - split; reflexivity.
Qed.

(** ** The has-more flag *)

(** C2: after a fetch that succeeded [hasMore] is set exactly when the
    response holds [ITEMS_PER_PAGE] items, so every shorter response, the
    empty one included, clears it; and while it is clear a scroll event
    changes nothing, the page counter in particular. *)
Theorem hasMore_iff_full_page :
  (forall w k response w',
     step (Settles k (Fulfilled response)) w = Some w' ->
     (hasMore (hooks w') = true <-> length response = ITEMS_PER_PAGE) /\
     ((length response < ITEMS_PER_PAGE)%nat -> hasMore (hooks w') = false)) /\
  (forall w m w',
     hasMore (hooks w) = false -> step (Scroll m) w = Some w' ->
     w' = w /\ page (hooks w') = page (hooks w)).
Proof.
  split.
  - intros w k response w' (r & Hk & ->)%step_Settles. simpl.
    unfold ITEMS_PER_PAGE.
    destruct (Nat.ltb_spec 0 (length response));
      destruct (Nat.eqb_spec (length response) 12); simpl;
      split; try split; intros; try done; lia.
  - intros w m w' H [_ ->]%step_Scroll.
    by rewrite H, andb_false_r.
Qed.

Lemma hasMore_iff_full_page_witness :
  hasMore (hooks (fetchTunes_resume (mkRequest 1 ITEMS_PER_PAGE "")
                    (Fulfilled [])
                    (withInflight (delete 0%nat)
                       (mount (mkProps false false) [] 0)))) = false.
Proof.
  apply (proj1 hasMore_iff_full_page (mount (mkProps false false) [] 0)
           0%nat [] _ eq_refl).
  unfold ITEMS_PER_PAGE. simpl. lia.
Defined.

(** ** The scroll trigger *)




(** ** What a failed fetch leaves alone *)

Lemma fetchTunes_frame w :
  tunes (hooks (fetchTunes w)) = tunes (hooks w) /\
  page (hooks (fetchTunes w)) = page (hooks w) /\
  hasMore (hooks (fetchTunes w)) = hasMore (hooks w) /\
  searchQuery (hooks (fetchTunes w)) = searchQuery (hooks w) /\
  debouncedSearch (hooks (fetchTunes w)) = debouncedSearch (hooks w).
Proof. unfold fetchTunes. by destruct (loading (hooks w)). Qed.

(** C9: a fetch that fails changes neither the result list nor the page
    counter, the has-more flag, the raw search term or the debounced one,
    from the call of [fetchTunes] to the end of its [finally] block; it
    ends with [loading] clear, so with [hasMore] still set a scroll event
    near the bottom of the open dialog increments the page counter. *)
Theorem failed_fetch_frame w k err w' :
  step (Settles k (Rejected err)) w = Some w' ->
  (tunes (hooks w') = tunes (hooks w) /\
   page (hooks w') = page (hooks w) /\
   hasMore (hooks w') = hasMore (hooks w) /\
   searchQuery (hooks w') = searchQuery (hooks w) /\
   debouncedSearch (hooks w') = debouncedSearch (hooks w)) /\
  (tunes (hooks (fetchTunes w)) = tunes (hooks w) /\
   page (hooks (fetchTunes w)) = page (hooks w) /\
   hasMore (hooks (fetchTunes w)) = hasMore (hooks w) /\
   searchQuery (hooks (fetchTunes w)) = searchQuery (hooks w) /\
   debouncedSearch (hooks (fetchTunes w)) = debouncedSearch (hooks w)) /\
  loading (hooks w') = false /\
  (forall m, hasMore (hooks w) = true -> isOpen (hooks w') = true ->
     nearBottom m = true ->
     exists w'', step (Scroll m) w' = Some w'' /\
       page (hooks w'') = page (hooks w) + 1).
Proof.
  intros (r & Hk & ->)%step_Settles.
  split; [done|]. split; [apply fetchTunes_frame|]. split; [done|].
  - intros m HM HO Hm. simpl in HO.
    destruct (step (Scroll m)
                (fetchTunes_resume r (Rejected err)
                   (withInflight (delete k) w))) as [w''|] eqn:Hs.
    + exists w''. split; [done|].
      apply step_Scroll in Hs as [_ ->]. simpl. by rewrite Hm, HM.
    + simpl in Hs. by rewrite HO in Hs.
Qed.

Lemma failed_fetch_frame_witness :
  exists w w',
    run [OpenChange true] (mount (mkProps false false) [] 0) = Some w /\
    step (Settles 0 (Rejected "503")) w = Some w' /\
    hasMore (hooks w') = hasMore (hooks w) /\
    page (hooks w') = page (hooks w).
Proof.
  eexists _, _. split_and!; [reflexivity | reflexivity | |].
  - refine (proj1 (proj2 (proj2 (proj1
             (failed_fetch_frame _ 0%nat "503" _ _)))));
    reflexivity.
  - refine (proj1 (proj2 (proj1
             (failed_fetch_frame _ 0%nat "503" _ _))));
    reflexivity.
Defined.

(** ** Selecting and removing *)

Lemma handleSelect_spec tune w :
  loraTextList (handleSelect tune w) = loraTextList w ++ [loraText tune] /\
  calls (handleSelect tune w) =
    calls w ++ (if onSelect (props w) then [CallOnSelect tune] else []) /\
  isOpen (hooks (handleSelect tune w)) = false.
Proof.
  unfold handleSelect, optionalCall.
  destruct (onSelect (props w)); simpl; by rewrite ?app_nil_r.
Qed.

Lemma step_ClickCard k w w' :
  step (ClickCard k) w = Some w' ->
  exists tune, tunes (hooks w) !! k = Some tune /\ w' = handleSelect tune w.
Proof.
  simpl. destruct (isOpen (hooks w)); [|done].
  destruct (tunes (hooks w) !! k) as [tune|]; [|done]. intros [= <-].
  exists tune. split; [done|].
  unfold commit. apply runEffects_same;
    unfold handleSelect, optionalCall; by destruct (onSelect (props w)).
Qed.

(** C5: selecting an item appends the text "<lora:" ++ id ++ ":1>" at the
    end of the shared list, all earlier entries staying where they were,
    calls [onSelect] with the item when that callback was given, and
    closes the dialog; this holds of the handler for every item, and a
    click on a card is a run of the handler on the card's item. *)
Theorem handleSelect_appends :
  (forall w tune,
     loraTextList (handleSelect tune w)
       = loraTextList w ++ ["<lora:" +:+ id tune +:+ ":1>"] /\
     take (length (loraTextList w)) (loraTextList (handleSelect tune w))
       = loraTextList w /\
     calls (handleSelect tune w)
       = calls w ++ (if onSelect (props w) then [CallOnSelect tune] else []) /\
     isOpen (hooks (handleSelect tune w)) = false) /\
  (forall tune, id tune = "abc" -> loraText tune = "<lora:abc:1>") /\
  (forall w k w', step (ClickCard k) w = Some w' ->
     exists tune, tunes (hooks w) !! k = Some tune /\ w' = handleSelect tune w).
Proof.
  split; [|split].
  - intros w tune.
    destruct (handleSelect_spec tune w) as (Hl & Hc & Ho).
    split_and!; try done.
    rewrite Hl. by rewrite take_app_length.
  - intros tune H. unfold loraText. by rewrite H.
  - intros w k w'. apply step_ClickCard.
Qed.

Lemma handleSelect_appends_witness :
  loraText (mkTune "abc" "A title" ["https://example.org/a.png"])
    = "<lora:abc:1>".
Proof.
  apply (proj1 (proj2 handleSelect_appends)). reflexivity.
Defined.

Lemma filterIndexed_past {A : Type} (l : list A) (base target : nat) :
  (target < base)%nat ->
  filterIndexed (fun _ i => negb (i =? target)%nat) base l = l.
Proof.
  revert base. induction l as [|x l IH]; intros base Hlt; [done|]. simpl.
  destruct (Nat.eqb_spec base target); [lia|]. simpl.
  f_equal. apply IH. lia.
Qed.

Lemma filterIndexed_delete {A : Type} (l : list A) (base index target : nat) :
  target = (base + index)%nat ->
  filterIndexed (fun _ i => negb (i =? target)%nat) base l = delete index l.
Proof.
  revert base index. induction l as [|x l IH]; intros base index ->; [done|].
  simpl. destruct index as [|index].
  - rewrite Nat.add_0_r, Nat.eqb_refl. simpl.
    apply filterIndexed_past. lia.
  - destruct (Nat.eqb_spec base (base + S index)); [lia|]. simpl.
    f_equal. apply IH. lia.
Qed.

Lemma handleRemove_spec index text w :
  loraTextList w !! index = Some text ->
  loraTextList (handleRemove index w) = delete index (loraTextList w) /\
  calls (handleRemove index w) =
    calls w ++ (if onRemove (props w) then [CallOnRemove text] else []) /\
  hooks (handleRemove index w) = hooks w.
Proof.
  intros H. unfold handleRemove, optionalCall. rewrite H.
  destruct (onRemove (props w)); simpl; rewrite ?app_nil_r;
    by rewrite (filterIndexed_delete _ 0 index index).
Qed.

Lemma step_ClickRemove index w w' :
  step (ClickRemove index) w = Some w' ->
  (index < length (loraTextList w))%nat /\ w' = handleRemove index w.
Proof.
  simpl. case_bool_decide as Hlt; [|done]. intros [= <-].
  split; [done|].
  destruct (lookup_lt_is_Some_2 _ _ Hlt) as [text Ht].
  destruct (handleRemove_spec index text w Ht) as (_ & _ & Hh).
  unfold commit. apply runEffects_same; by rewrite Hh.
Qed.

(** C6: a click on the remove button of a valid index [i] deletes the
    entry at [i] and nothing else: the entries before [i] stay where they
    were, those after [i] move down by one, the list gets one shorter; and
    [onRemove], when given, is called with the entry removed.  Every valid
    index has such a button. *)
Theorem handleRemove_deletes w i text :
  loraTextList w !! i = Some text ->
  exists w', step (ClickRemove i) w = Some w' /\
    loraTextList w' = take i (loraTextList w) ++ drop (S i) (loraTextList w) /\
    (forall j, (j < i)%nat -> loraTextList w' !! j = loraTextList w !! j) /\
    (forall j, (i <= j)%nat -> loraTextList w' !! j = loraTextList w !! S j) /\
    S (length (loraTextList w')) = length (loraTextList w) /\
    calls w' =
      calls w ++ (if onRemove (props w) then [CallOnRemove text] else []).
Proof.
  intros Ht.
  assert (i < length (loraTextList w))%nat as Hlt by by eapply lookup_lt_Some.
  destruct (step (ClickRemove i) w) as [w'|] eqn:Hs.
  - exists w'. split; [done|].
    apply step_ClickRemove in Hs as [_ ->].
    destruct (handleRemove_spec i text w Ht) as (-> & -> & _).
    split_and!; try done.
    + by rewrite delete_take_drop.
    + intros j Hj. by apply list_lookup_delete_lt.
    + intros j Hj. by apply list_lookup_delete_ge.
    + rewrite length_delete by eauto. lia.
  - simpl in Hs. by rewrite bool_decide_true in Hs.
Qed.

Lemma handleRemove_deletes_witness :
  exists w',
    step (ClickRemove 0) (mkWorld (mkProps false true) initialHooks
                            ["<lora:a:1>"; "<lora:b:1>"] [] None 0 [])
      = Some w' /\
    loraTextList w' = ["<lora:b:1>"] /\
    calls w' = [CallOnRemove "<lora:a:1>"].
Proof.
  destruct (handleRemove_deletes
              (mkWorld (mkProps false true) initialHooks
                 ["<lora:a:1>"; "<lora:b:1>"] [] None 0 [])
              0%nat "<lora:a:1>" eq_refl)
    as (w' & Hs & Hl & _ & _ & _ & Hc).
  exists w'. split_and!; [exact Hs | exact Hl | exact Hc].
Defined.

(** ** Pages adding up *)

Lemma step_Scroll_eq m w :
  isOpen (hooks w) = true ->
  step (Scroll m) w =
    Some (if nearBottom m && hasMore (hooks w) && negb (loading (hooks w))
          then fetchTunes (withHooks (setPage (fun prev => prev + 1)) w)
          else w).
Proof.
  intros HO. destruct (step (Scroll m) w) as [w'|] eqn:Hs.
  - by apply step_Scroll in Hs as [_ ->].
  - simpl in Hs. by rewrite HO in Hs.
Qed.

Lemma step_Settles_eq k r o w :
  inflight w !! k = Some r ->
  step (Settles k o) w =
    Some (fetchTunes_resume r o (withInflight (delete k) w)).
Proof.
  intros Hk. destruct (step (Settles k o) w) as [w'|] eqn:Hs.
  - apply step_Settles in Hs as (r' & Hk' & ->). congruence.
  - simpl in Hs. by rewrite Hk in Hs.
Qed.

Lemma nextPages_run m rest : forall w,
  nearBottom m = true ->
  isOpen (hooks w) = true -> loading (hooks w) = false -> inflight w = [] ->
  1 <= page (hooks w) ->
  (rest <> [] -> hasMore (hooks w) = true) ->
  fullBeforeLast rest ->
  exists w', run (nextPages m rest) w = Some w' /\
    tunes (hooks w') = tunes (hooks w) ++ concat rest /\
    page (hooks w') = page (hooks w) + Z.of_nat (length rest).
Proof.
  induction rest as [|response rest IH]; intros w Hm HO L Hi Hp HM Hfull.
  - exists w. simpl. split_and!; [done | by rewrite app_nil_r | lia].
  - cbn [nextPages run].
    rewrite step_Scroll_eq by done.
    rewrite Hm, HM, L by done. cbn [andb negb mbind option_bind].
    rewrite fetchTunes_idle by done.
    erewrite step_Settles_eq; last first.
    { cbn. rewrite Hi. reflexivity. }
    cbn [mbind option_bind].
    match goal with |- exists _, run _ ?w1 = _ /\ _ => set (w1' := w1) end.
    destruct (IH w1') as (w' & Hr & Ht & Hpg); subst w1'; try done.
    + cbn. by rewrite Hi.
    + cbn. lia.
    + intros Hne. cbn. destruct rest; [done|].
      destruct Hfull as [-> _]. reflexivity.
    + destruct rest; [done|]. by destruct Hfull.
    + exists w'. split; [done|]. rewrite Ht, Hpg. cbn.
      destruct (Z.eqb_spec (page (hooks w) + 1) 1); [lia|].
      split; [by rewrite <- app_assoc | lia].
Qed.

(** C1, amended: a request carries the page counter of the render that
    made it; when it succeeds, the response replaces the result list if
    that page is 1 and is appended to the list otherwise, in any world.
    So when the response to the one outstanding request, made for page 1
    with the page counter at 1, is followed by successive next pages,
    every response and every scroll handled in turn and the timer not
    firing in between, the list is the responses one after the other, and
    its length the sum of their lengths. *)
Theorem fetched_pages_accumulate :
  (forall render w, loading render = false ->
     inflight (fetchTunesOf render w) =
       inflight w ++ [mkRequest (page render) ITEMS_PER_PAGE
                        (debouncedSearch render)]) /\
  (forall w k r response,
     inflight w !! k = Some r ->
     exists w',
       step (Settles k (Fulfilled response)) w = Some w' /\
       tunes (hooks w') =
         if req_page r =? 1 then response
         else tunes (hooks w) ++ response) /\
  (forall w r m first rest,
     inflight w = [r] -> req_page r = 1 -> page (hooks w) = 1 ->
     isOpen (hooks w) = true -> nearBottom m = true ->
     fullBeforeLast (first :: rest) ->
     exists w',
       run (Settles 0 (Fulfilled first) :: nextPages m rest) w = Some w' /\
       tunes (hooks w') = concat (first :: rest) /\
       length (tunes (hooks w')) = sum_list_with length (first :: rest) /\
       page (hooks w') = Z.of_nat (length (first :: rest))).
Proof.
  split; [|split].
  - intros render w L. unfold fetchTunesOf. by rewrite L.
  - intros w k r response Hk. eexists.
    split; [by apply step_Settles_eq | reflexivity].
  - intros w r m first rest Hi Hr Hp HO Hm Hfull.
    assert (inflight w !! 0%nat = Some r) as Hk by by rewrite Hi.
    cbn [run]. rewrite (step_Settles_eq _ _ _ _ Hk). cbn [mbind option_bind].
    match goal with |- exists _, run _ ?w1 = _ /\ _ => set (w1' := w1) end.
    destruct (nextPages_run m rest w1') as (w' & Hrun & Ht & Hpg);
      subst w1'; try done.
    + cbn. by rewrite Hi.
    + cbn. lia.
    + intros Hne. cbn. destruct rest; [done|].
      destruct Hfull as [-> _]. reflexivity.
    + destruct rest; [done|]. by destruct Hfull.
    + exists w'. split; [done|].
      assert (tunes (hooks w') = concat (first :: rest)) as Hc.
      { rewrite Ht. cbn. by rewrite Hr. }
      split; [exact Hc|]. split.
      * rewrite Hc. clear. induction (first :: rest) as [|x l IH]; [done|].
        cbn. by rewrite length_app, IH.
      * rewrite Hpg. cbn [length]. simpl. lia.
Qed.

Lemma fetched_pages_accumulate_witness :
  exists w',
    run (Settles 0 (Fulfilled (pageOf 12))
           :: nextPages onTheLine [pageOf 12; pageOf 5])
      (commit (handleOpenChange true) (mount (mkProps false false) [] 0))
      = Some w' /\
    length (tunes (hooks w')) = 29%nat.
Proof.
  destruct (proj2 (proj2 fetched_pages_accumulate)
              (commit (handleOpenChange true)
                 (mount (mkProps false false) [] 0))
              (mkRequest 1 ITEMS_PER_PAGE "")
              onTheLine (pageOf 12) [pageOf 12; pageOf 5]
              eq_refl eq_refl eq_refl eq_refl eq_refl
              (conj eq_refl (conj eq_refl I)))
    as (w' & Hrun & _ & Hlen & _).
  exists w'. split; [exact Hrun | exact Hlen].
Defined.

(** C1 as stated fails in two ways.  The timer armed on mounting fires
    between the first page and the second: the list holds the 5 items of
    page 2, not the 17 of both pages.  And with two requests for page 1
    in flight, as after mounting under StrictMode, the second response
    arrives with the page counter at 2 and replaces the list instead of
    being appended to it. *)
Lemma pages_wiped_or_replaced :
  (exists w',
     run [Settles 0 (Fulfilled (pageOf 12)); OpenChange true; Elapse 300;
          TimerFires; Scroll onTheLine; Settles 0 (Fulfilled (pageOf 5))]
       (mount (mkProps false false) [] 0) = Some w' /\
     page (hooks w') = 2 /\
     length (tunes (hooks w')) = 5%nat /\
     length (tunes (hooks w')) <> (12 + 5)%nat) /\
  (exists w w',
     run [Settles 0 (Fulfilled (pageOf 12)); OpenChange true;
          Scroll onTheLine]
       (mountStrict (mkProps false false) [] 0) = Some w /\
     page (hooks w) = 2 /\ tunes (hooks w) = pageOf 12 /\
     step (Settles 0 (Fulfilled (pageOf 3))) w = Some w' /\
     tunes (hooks w') = pageOf 3 /\
     tunes (hooks w') <> tunes (hooks w) ++ pageOf 3).
Proof.
  split.
  - eexists. split; [vm_compute; reflexivity|].
    split; [reflexivity|]. split; [reflexivity|]. simpl. lia.
  - eexists. eexists. split; [vm_compute; reflexivity|].
    split; [reflexivity|]. split; [reflexivity|].
    split; [vm_compute; reflexivity|]. split; [reflexivity|].
    intros H. apply (f_equal length) in H. vm_compute in H. discriminate H.
Qed.

(** ** The debounce *)

Lemma runEffects_frame prev w :
  tunes (hooks (runEffects prev w)) = tunes (hooks w) /\
  page (hooks (runEffects prev w)) = page (hooks w) /\
  hasMore (hooks (runEffects prev w)) = hasMore (hooks w) /\
  searchQuery (hooks (runEffects prev w)) = searchQuery (hooks w) /\
  debouncedSearch (hooks (runEffects prev w)) = debouncedSearch (hooks w).
Proof.
  unfold runEffects, fetchEffect.
  set (w1 := if String.eqb _ _ then w else debounceEffect w).
  assert (hooks w1 = hooks w) as Hh
    by (subst w1; by destruct (String.eqb _ _)).
  destruct (_ && _); rewrite <- Hh; [done | apply fetchTunes_frame].
Qed.

Lemma step_Change_eq value w :
  isOpen (hooks w) = true -> value <> searchQuery (hooks w) ->
  step (Change value) w =
    Some (withTimer (Some (mkTimer (clock w + DEBOUNCE_MS) value))
            (withHooks (setSearchQuery value) w)).
Proof.
  intros HO Hne. simpl. rewrite HO. f_equal.
  unfold commit, runEffects, handleChange. simpl.
  assert (String.eqb (searchQuery (hooks w)) value = false) as ->
    by (apply String.eqb_neq; congruence).
  simpl. by rewrite Z.eqb_refl, String.eqb_refl.
Qed.

Lemma step_TimerFires_eq t w :
  timer w = Some t -> deadline t <= clock w ->
  step TimerFires w =
    Some (runEffects (hooks w)
            (debounceCallback (captured t) (withTimer None w))).
Proof.
  intros Ht Hd. simpl. rewrite Ht. simpl.
  apply Z.leb_le in Hd. by rewrite Hd.
Qed.

Lemma timerFresh_fetchTunes w : timerFresh w -> timerFresh (fetchTunes w).
Proof. unfold fetchTunes. by destruct (loading (hooks w)). Qed.

Lemma timerFresh_commit f w :
  timerFresh w -> timer (f w) = timer w -> timerFresh (commit f w).
Proof.
  intros Hw Ht. unfold commit, runEffects, fetchEffect.
  set (w1 := if String.eqb _ _ then f w else debounceEffect (f w)).
  assert (timerFresh w1) as H1.
  { subst w1. destruct (String.eqb_spec (searchQuery (hooks w))
                          (searchQuery (hooks (f w)))) as [Heq|_].
    - intros t Hf. rewrite <- Heq. apply Hw. by rewrite <- Ht.
    - intros t [= <-]. reflexivity. }
  destruct (_ && _); [exact H1 | by apply timerFresh_fetchTunes].
Qed.

Lemma timerFresh_step e w w' :
  step e w = Some w' -> timerFresh w -> timerFresh w'.
Proof.
  intros Hs H. destruct e; simpl in Hs.
  - injection Hs as <-. by apply timerFresh_commit.
  - destruct (isOpen _); [|done]. injection Hs as <-.
    by apply timerFresh_commit.
  - destruct (isOpen _); [|done]. injection Hs as <-.
    apply timerFresh_commit; [done|].
    unfold handleScroll. by destruct (_ && _).
  - destruct (_ && _); [|done]. injection Hs as <-.
    apply timerFresh_commit; [done|].
    unfold fetchTunes. by destruct (loading _).
  - destruct (isOpen _); [|done].
    destruct (tunes _ !! _) as [tune|]; [|done]. injection Hs as <-.
    apply timerFresh_commit; [done|].
    unfold handleSelect, optionalCall. by destruct (onSelect _).
  - destruct (bool_decide _); [|done]. injection Hs as <-.
    apply timerFresh_commit; [done|].
    unfold handleRemove, optionalCall.
    destruct (_ !! _); [|done]. by destruct (onRemove _).
  - destruct (0 <=? ms); [|done]. by injection Hs as <-.
  - destruct (timer w) as [t|]; [|done]. simpl in Hs.
    destruct (deadline t <=? clock w); [|done]. injection Hs as <-.
    apply (timerFresh_commit (debounceCallback (captured t))); [|done].
    intros t' Ht'. discriminate Ht'.
  - destruct (inflight w !! k) as [r|]; [|done]. injection Hs as <-.
    apply (timerFresh_commit (fetchTunes_resume r o)).
    + exact H.
    + by destruct o.
Qed.

Lemma reachable_timerFresh w : reachable w -> timerFresh w.
Proof.
  induction 1 as [p store now | e w w' _ IH Hs].
  - intros t [= <-]. reflexivity.
  - by eapply timerFresh_step.
Qed.

(** Whenever the timer fires in a reachable world, the debounced term
    becomes the raw term of that moment. *)
Lemma TimerFires_takes_raw_term w w' :
  reachable w -> step TimerFires w = Some w' ->
  debouncedSearch (hooks w') = searchQuery (hooks w) /\
  page (hooks w') = 1 /\ tunes (hooks w') = [].
Proof.
  intros Hw Hs. pose proof (reachable_timerFresh w Hw) as Hf.
  simpl in Hs. destruct (timer w) as [t|] eqn:Ht; [|done]. simpl in Hs.
  destruct (deadline t <=? clock w); [|done]. injection Hs as <-.
  unfold commit.
  destruct (runEffects_frame (hooks (withTimer None w))
              (debounceCallback (captured t) (withTimer None w)))
    as (-> & -> & _ & _ & ->).
  simpl. by rewrite (Hf t).
Qed.

(** C3, amended: a change of the search input sets the raw term at once
    and, when the term is new, arms the timer 300 ms ahead in place of any
    earlier one, the debounced term, the page counter and the result list
    staying as they were; the timer cannot fire before 300 ms have passed;
    when it fires, the debounced term becomes the raw term, the page
    counter 1 and the result list empty; and then, if no fetch was in
    flight and the page counter or the debounced term changed thereby, a
    request for page 1 of the new term is issued. *)
Theorem debounce_then_fetch w value w1 :
  step (Change value) w = Some w1 ->
  searchQuery (hooks w1) = value /\
  (value <> searchQuery (hooks w) ->
   timer w1 = Some (mkTimer (clock w + DEBOUNCE_MS) value) /\
   debouncedSearch (hooks w1) = debouncedSearch (hooks w) /\
   page (hooks w1) = page (hooks w) /\
   tunes (hooks w1) = tunes (hooks w) /\
   forall ms, 0 <= ms ->
     exists w2, step (Elapse ms) w1 = Some w2 /\
       searchQuery (hooks w2) = value /\
       (ms < 300 -> step TimerFires w2 = None) /\
       (300 <= ms ->
        exists w3, step TimerFires w2 = Some w3 /\
          debouncedSearch (hooks w3) = searchQuery (hooks w2) /\
          page (hooks w3) = 1 /\
          tunes (hooks w3) = [] /\
          (loading (hooks w) = false ->
           page (hooks w) <> 1 \/ debouncedSearch (hooks w) <> value ->
           loading (hooks w3) = true /\
           inflight w3 = inflight w ++ [mkRequest 1 ITEMS_PER_PAGE value]))).
Proof.
  intros Hs.
  assert (isOpen (hooks w) = true) as HO
    by (simpl in Hs; by destruct (isOpen (hooks w))).
  split.
  { simpl in Hs. rewrite HO in Hs. injection Hs as <-.
    unfold commit. by rewrite (proj1 (proj2 (proj2 (proj2
      (runEffects_frame _ _))))). }
  intros Hne. rewrite step_Change_eq in Hs by done. injection Hs as <-.
  split_and!; try done.
  intros ms Hms. eexists. split.
  { simpl. apply Z.leb_le in Hms. by rewrite Hms. }
  split; [done|]. split.
  - intros Hlt. simpl.
    destruct (Z.leb_spec (clock w + DEBOUNCE_MS) (clock w + ms));
      [unfold DEBOUNCE_MS in *; lia | done].
  - intros Hge. eexists. split.
    { apply (step_TimerFires_eq (mkTimer (clock w + DEBOUNCE_MS) value));
        [done | simpl; unfold DEBOUNCE_MS; lia]. }
    destruct (runEffects_frame
      (hooks (withClock (clock w + ms)
         (withTimer (Some (mkTimer (clock w + DEBOUNCE_MS) value))
            (withHooks (setSearchQuery value) w))))
      (debounceCallback value (withTimer None
         (withClock (clock w + ms)
            (withTimer (Some (mkTimer (clock w + DEBOUNCE_MS) value))
               (withHooks (setSearchQuery value) w))))))
      as (Ht & Hp & _ & _ & Hd).
    simpl captured. rewrite Ht, Hp, Hd. split_and!; try done.
    intros L Hch. rewrite runEffects_fetch; [| done |].
    + rewrite fetchTunes_idle by done. done.
    + simpl. tauto.
Qed.

Lemma debounce_then_fetch_witness :
  run [Settles 0 (Fulfilled (pageOf 12)); OpenChange true]
    (mount (mkProps false false) [] 0) = Some firstPageShown /\
  exists w1,
    step (Change "a") firstPageShown = Some w1 /\
    searchQuery (hooks w1) = "a".
Proof.
  split; [reflexivity|]. eexists. split; [reflexivity|].
  exact (proj1 (debounce_then_fetch firstPageShown "a" _ eq_refl)).
Defined.

(** C3 as stated fails when the timer fires while a fetch is in flight:
    the term "a" becomes the debounced term with the request made on
    mounting still outstanding, no request for "a" is issued, and once the
    old response is in, nothing is in flight and no timer is armed, while
    the list shows the response to the empty term. *)
Lemma debounce_fetch_dropped :
  exists w w',
    run [OpenChange true; Change "a"; Elapse 300; TimerFires]
      (mount (mkProps false false) [] 0) = Some w /\
    searchQuery (hooks w) = "a" /\ debouncedSearch (hooks w) = "a" /\
    page (hooks w) = 1 /\ tunes (hooks w) = [] /\
    inflight w = [mkRequest 1 ITEMS_PER_PAGE ""] /\
    step (Settles 0 (Fulfilled (pageOf 3))) w = Some w' /\
    inflight w' = [] /\ timer w' = None /\ loading (hooks w') = false /\
    debouncedSearch (hooks w') = "a" /\ tunes (hooks w') = pageOf 3.
Proof. eexists _, _. split_and!; reflexivity. Qed.

(** ** Failure and retry *)







(** ** Further invariants *)

(** Case analysis on an event that happened: one goal for each event, on
    the world its handler and the effects produced. *)
Ltac step_cases Hs :=
  match type of Hs with
  | step ?e ?w = Some _ =>
      destruct e; simpl in Hs;
      [ injection Hs as <-
      | destruct (isOpen (hooks w)) eqn:?;
          [injection Hs as <- | discriminate Hs]
      | destruct (isOpen (hooks w)) eqn:?;
          [injection Hs as <- | discriminate Hs]
      | destruct (isOpen (hooks w) && _) eqn:?;
          [injection Hs as <- | discriminate Hs]
      | destruct (isOpen (hooks w)) eqn:?; [| discriminate Hs];
        destruct (tunes (hooks w) !! _) eqn:?;
          [injection Hs as <- | discriminate Hs]
      | destruct (bool_decide _) eqn:?;
          [injection Hs as <- | discriminate Hs]
      | destruct (0 <=? _) eqn:?;
          [injection Hs as <- | discriminate Hs]
      | destruct (timer w) eqn:?; [simpl in Hs | discriminate Hs];
        destruct (deadline _ <=? clock w) eqn:?;
          [injection Hs as <- | discriminate Hs]
      | destruct (inflight w !! _) eqn:?;
          [injection Hs as <- | discriminate Hs] ]
  end.

Lemma runEffects_outside prev w :
  props (runEffects prev w) = props w /\
  loraTextList (runEffects prev w) = loraTextList w /\
  calls (runEffects prev w) = calls w /\
  clock (runEffects prev w) = clock w /\
  isOpen (hooks (runEffects prev w)) = isOpen (hooks w).
Proof.
  unfold runEffects, fetchEffect.
  set (w1 := if String.eqb _ _ then w else debounceEffect w).
  assert (props w1 = props w /\ loraTextList w1 = loraTextList w /\
          calls w1 = calls w /\ clock w1 = clock w /\
          isOpen (hooks w1) = isOpen (hooks w)) as (<- & <- & <- & <- & <-)
    by (subst w1; by destruct (String.eqb _ _)).
  destruct (_ && _); [by repeat split|].
  unfold fetchTunes. destruct (loading (hooks w1)); by repeat split.
Qed.

Lemma pagesFromOne_fetchTunes w : pagesFromOne w -> pagesFromOne (fetchTunes w).
Proof.
  intros [Hp Hr]. unfold fetchTunes. destruct (loading (hooks w)); [by split|].
  split; [exact Hp|]. simpl. intros r [Hin | ->%list_elem_of_singleton]%elem_of_app.
  - by apply Hr.
  - by split.
Qed.

Lemma pagesFromOne_runEffects prev w :
  pagesFromOne w -> pagesFromOne (runEffects prev w).
Proof.
  intros H. unfold runEffects, fetchEffect.
  set (w1 := if String.eqb _ _ then w else debounceEffect w).
  assert (pagesFromOne w1) as H1 by (subst w1; by destruct (String.eqb _ _)).
  destruct (_ && _); [exact H1 | by apply pagesFromOne_fetchTunes].
Qed.

Lemma pagesFromOne_step e w w' :
  step e w = Some w' -> pagesFromOne w -> pagesFromOne w'.
Proof.
  intros Hs [Hp Hr]. step_cases Hs;
    try (apply pagesFromOne_runEffects); try (by split).
  - unfold handleScroll. destruct (_ && _); [|by split].
    split; [simpl; lia | exact Hr].
  - by apply pagesFromOne_fetchTunes.
  - unfold handleSelect, optionalCall. by destruct (onSelect _).
  - unfold handleRemove, optionalCall.
    destruct (_ !! _); [|by split]. by destruct (onRemove _).
  - assert (forall r', r' ∈ delete k (inflight w) ->
              1 <= req_page r' /\ req_limit r' = ITEMS_PER_PAGE) as Hd
      by (intros r' Hin%list_elem_of_delete_inv; by apply Hr).
    destruct o; by split.
Qed.

Lemma reachable_pagesFromOne w : reachable w -> pagesFromOne w.
Proof.
  induction 1 as [p store now | e w w' _ IH Hs].
  - split; [simpl; lia|]. simpl.
    intros r ->%list_elem_of_singleton. split; [simpl; lia | reflexivity].
  - by eapply pagesFromOne_step.
Qed.

Lemma errorText_fetchTunes w : errorText w -> errorText (fetchTunes w).
Proof.
  intros H. unfold fetchTunes. destruct (loading (hooks w)); [exact H|].
  by left.
Qed.

Lemma errorText_runEffects prev w :
  errorText w -> errorText (runEffects prev w).
Proof.
  intros H. unfold runEffects, fetchEffect.
  set (w1 := if String.eqb _ _ then w else debounceEffect w).
  assert (errorText w1) as H1 by (subst w1; by destruct (String.eqb _ _)).
  destruct (_ && _); [exact H1 | by apply errorText_fetchTunes].
Qed.

Lemma errorText_step e w w' :
  step e w = Some w' -> errorText w -> errorText w'.
Proof.
  intros Hs H. step_cases Hs;
    try (apply errorText_runEffects); try exact H.
  - unfold handleScroll. by destruct (_ && _).
  - by apply errorText_fetchTunes.
  - unfold handleSelect, optionalCall. by destruct (onSelect _).
  - unfold handleRemove, optionalCall.
    destruct (_ !! _); [|exact H]. by destruct (onRemove _).
  - destruct o; [exact H | by right].
Qed.

Lemma reachable_errorText w : reachable w -> errorText w.
Proof.
  induction 1 as [p store now | e w w' _ IH Hs].
  - by left.
  - by eapply errorText_step.
Qed.

Lemma callsAllowed_commit f w :
  callsAllowed w -> props (f w) = props w ->
  (forall c, c ∈ calls (f w) -> c ∈ calls w \/
     match c with
     | CallOnSelect _ => onSelect (props w) = true
     | CallOnRemove _ => onRemove (props w) = true
     | ConsoleError message _ => message = "Error fetching tunes:"
     end) ->
  callsAllowed (commit f w).
Proof.
  intros Hw Hp Hc c. unfold commit.
  destruct (runEffects_outside (hooks w) (f w)) as (-> & _ & -> & _).
  rewrite Hp. intros [Hin|Hnew]%Hc; [by apply Hw | exact Hnew].
Qed.

Lemma callsAllowed_step e w w' :
  step e w = Some w' -> callsAllowed w -> callsAllowed w'.
Proof.
  intros Hs H. step_cases Hs; try exact H;
    apply callsAllowed_commit; try exact H; try reflexivity;
    try (intros c Hin; by left).
  - unfold handleScroll. by destruct (_ && _).
  - unfold handleScroll. destruct (_ && _); intros c Hin; by left.
  - unfold fetchTunes. by destruct (loading _).
  - unfold fetchTunes. destruct (loading _); intros c Hin; by left.
  - unfold handleSelect, optionalCall. by destruct (onSelect _).
  - unfold handleSelect, optionalCall.
    destruct (onSelect (props w)) eqn:Hg; simpl; intros c Hin.
    + apply elem_of_app in Hin as [Hin | ->%list_elem_of_singleton];
        [by left | by right].
    + by left.
  - unfold handleRemove, optionalCall.
    destruct (_ !! _); [|done]. by destruct (onRemove _).
  - unfold handleRemove, optionalCall.
    destruct (_ !! _); [|intros c Hin; by left].
    destruct (onRemove (props w)) eqn:Hg; simpl; intros c Hin.
    + apply elem_of_app in Hin as [Hin | ->%list_elem_of_singleton];
        [by left | by right].
    + by left.
  - by destruct o.
  - destruct o; simpl; intros c Hin; [by left|].
    apply elem_of_app in Hin as [Hin | ->%list_elem_of_singleton];
      [by left | by right].
Qed.

Lemma reachable_callsAllowed w : reachable w -> callsAllowed w.
Proof.
  induction 1 as [p store now | e w w' _ IH Hs].
  - intros c Hin. simpl in Hin. by apply elem_of_nil in Hin.
  - by eapply callsAllowed_step.
Qed.

(** ** The query: page counter and debounced term *)

(** X1: in every reachable world the page counter is at least 1, and every
    request in flight asks for a page from 1 on and for exactly
    [ITEMS_PER_PAGE] items. *)
Theorem pages_start_at_one w :
  reachable w ->
  1 <= page (hooks w) /\
  forall r, r ∈ inflight w -> 1 <= req_page r /\ req_limit r = ITEMS_PER_PAGE.
Proof. apply reachable_pagesFromOne. Qed.

Lemma pages_start_at_one_witness :
  1 <= page (hooks (mount (mkProps false false) [] 0)).
Proof.
  exact (proj1 (pages_start_at_one _ (reachable_mount _ _ _))).
Defined.

(** X2: an event leaves the page counter as it is, unless it is a scroll
    event, which may add 1 to it, or the firing of the timer, which sets
    it to 1; and it leaves the debounced term as it is, unless it is the
    firing of the timer, which sets it to the term the timer closed
    over. *)
Theorem query_moves_by_scroll_and_timer e w w' :
  step e w = Some w' ->
  (page (hooks w') = page (hooks w) \/
   (exists m, e = Scroll m /\ page (hooks w') = page (hooks w) + 1) \/
   (e = TimerFires /\ page (hooks w') = 1)) /\
  (debouncedSearch (hooks w') = debouncedSearch (hooks w) \/
   (e = TimerFires /\
    exists t, timer w = Some t /\ debouncedSearch (hooks w') = captured t)).
Proof.
  intros Hs. step_cases Hs; unfold commit;
    try match goal with
        | |- context [runEffects ?prev ?x] =>
            destruct (runEffects_frame prev x) as (_ & -> & _ & _ & ->)
        end.
  - by split; left.
  - by split; left.
  - unfold handleScroll. destruct (_ && _); [|by split; left].
    split; [right; left; by exists m | by left].
  - unfold fetchTunes. destruct (loading _); by split; left.
  - unfold handleSelect, optionalCall.
    destruct (onSelect _); by split; left.
  - unfold handleRemove, optionalCall. destruct (_ !! _); [|by split; left].
    destruct (onRemove _); by split; left.
  - by split; left.
  - split; [right; right; by split|]. right. split; [reflexivity|].
    eexists. by split.
  - destruct o; by split; left.
Qed.

Lemma query_moves_by_scroll_and_timer_witness :
  page (hooks (commit (handleOpenChange true)
                 (mount (mkProps false false) [] 0))) = 1 \/
  (exists m, OpenChange true = Scroll m /\
     page (hooks (commit (handleOpenChange true)
                    (mount (mkProps false false) [] 0))) = 1 + 1) \/
  (OpenChange true = TimerFires /\
   page (hooks (commit (handleOpenChange true)
                  (mount (mkProps false false) [] 0))) = 1).
Proof.
  exact (proj1 (query_moves_by_scroll_and_timer (OpenChange true)
                  (mount (mkProps false false) [] 0) _ eq_refl)).
Defined.

(** ** The view *)

(** X3: in a reachable world with the dialog open, the spinner and the
    error text are never rendered together; the error text, when
    rendered, is the one text of the [catch] block; and the retry button
    can be clicked exactly when the error text is rendered. *)
Theorem spinner_excludes_error w d :
  reachable w -> dialogContent (render w) = Some d ->
  (spinnerShown d = true -> errorShown d = None) /\
  (errorShown d = None \/ errorShown d = Some LOAD_FAILED) /\
  (is_Some (errorShown d) <-> is_Some (step ClickRetry w)).
Proof.
  intros Hw Hd.
  pose proof (reachable_oneFetch w Hw) as Hone.
  pose proof (reachable_errorText w Hw) as Herr.
  unfold oneFetch in Hone. unfold errorText in Herr.
  unfold render in Hd. cbn [dialogContent] in Hd.
  destruct (isOpen (hooks w)) eqn:HO; [|discriminate Hd].
  injection Hd as <-. cbn [spinnerShown errorShown].
  cbn [step]. rewrite HO. cbn [andb].
  destruct Herr as [He|He]; rewrite He; cbn [truthy].
  - split; [done|]. split; [by left|].
    rewrite bool_decide_false by (intros [x Hx]; discriminate Hx).
    split; intros [x Hx]; discriminate Hx.
  - split.
    + intros L. rewrite L in Hone. destruct Hone as (r & _ & Hn & _).
      rewrite He in Hn. discriminate Hn.
    + split; [by right|].
      rewrite bool_decide_true by by eexists.
      split; intros _; by eexists.
Qed.

Lemma spinner_excludes_error_witness :
  errorShown
    {| inputValue := ""; errorShown := None; cards := [];
       spinnerShown := true |} = None.
Proof.
  refine (proj1 (spinner_excludes_error
            (commit (handleOpenChange true)
               (mount (mkProps false false) [] 0)) _
            (reachable_step (OpenChange true) _ _
               (reachable_mount _ _ _) eq_refl)
            eq_refl) eq_refl).
Defined.

(** ** The shared list and the callbacks *)

Lemma step_outside_clicks e w w' :
  step e w = Some w' ->
  props w' = props w /\
  (isClickCard e = false -> isClickRemove e = false ->
   loraTextList w' = loraTextList w).
Proof.
  intros Hs. step_cases Hs; unfold commit;
    try match goal with
        | |- context [runEffects ?prev ?x] =>
            destruct (runEffects_outside prev x) as (-> & -> & _)
        end; try (split; [reflexivity | intros; reflexivity]).
  - unfold handleScroll. by destruct (_ && _).
  - unfold fetchTunes. by destruct (loading _).
  - split; [|intros H; discriminate H].
    unfold handleSelect, optionalCall. by destruct (onSelect _).
  - split; [|intros _ H; discriminate H].
    unfold handleRemove, optionalCall.
    destruct (_ !! _); [|done]. by destruct (onRemove _).
  - by destruct o.
Qed.

(** X4: only a click on a card or on a remove button changes the shared
    list; no event changes the props. *)
Theorem store_moves_by_clicks e w w' :
  step e w = Some w' ->
  props w' = props w /\
  (isClickCard e = false -> isClickRemove e = false ->
   loraTextList w' = loraTextList w).
Proof. apply step_outside_clicks. Qed.

Lemma store_moves_by_clicks_witness :
  loraTextList (commit (handleOpenChange true)
                  (mount (mkProps false false) ["<lora:a:1>"] 0))
    = ["<lora:a:1>"].
Proof.
  exact (proj2 (store_moves_by_clicks (OpenChange true)
                  (mount (mkProps false false) ["<lora:a:1>"] 0) _ eq_refl)
           eq_refl eq_refl).
Defined.

(** X5: a callback that was not given is never called: in a reachable
    world without [onSelect] no call of it is on record, likewise for
    [onRemove]; and every line on the console is the one written by the
    [catch] block of [fetchTunes]. *)
Theorem absent_callbacks_never_called w :
  reachable w ->
  (onSelect (props w) = false -> forall tune, CallOnSelect tune ∉ calls w) /\
  (onRemove (props w) = false -> forall text, CallOnRemove text ∉ calls w) /\
  (forall message err, ConsoleError message err ∈ calls w ->
     message = "Error fetching tunes:").
Proof.
  intros Hw. pose proof (reachable_callsAllowed w Hw) as H.
  split; [|split].
  - intros Hn tune Hin. apply H in Hin. congruence.
  - intros Hn text Hin. apply H in Hin. congruence.
  - intros message err Hin. by apply H in Hin.
Qed.

Lemma absent_callbacks_never_called_witness :
  CallOnSelect (mkTune "abc" "A title" [])
    ∉ calls (mount (mkProps false false) [] 0).
Proof.
  exact (proj1 (absent_callbacks_never_called
                  (mount (mkProps false false) [] 0)
                  (reachable_mount _ _ _))
           eq_refl (mkTune "abc" "A title" [])).
Defined.

(** X6: removing the entry a selection has just appended gives back the
    shared list as it was before the selection; [onRemove], when given,
    is called with the text the selection made. *)
Theorem select_then_remove_restores w k w1 :
  step (ClickCard k) w = Some w1 ->
  exists tune w2,
    tunes (hooks w) !! k = Some tune /\
    step (ClickRemove (length (loraTextList w))) w1 = Some w2 /\
    loraTextList w2 = loraTextList w /\
    (onRemove (props w) = true ->
     last (calls w2) = Some (CallOnRemove (loraText tune))).
Proof.
  intros (tune & Hk & ->)%step_ClickCard. exists tune.
  destruct (handleSelect_spec tune w) as (Hl & _ & _).
  assert (loraTextList (handleSelect tune w) !! length (loraTextList w)
          = Some (loraText tune)) as Hlast.
  { rewrite Hl. by apply list_lookup_middle. }
  assert (props (handleSelect tune w) = props w) as Hp.
  { unfold handleSelect, optionalCall. by destruct (onSelect _). }
  destruct (step (ClickRemove (length (loraTextList w)))
              (handleSelect tune w)) as [w2|] eqn:Hs.
  - exists w2. split; [exact Hk|]. split; [reflexivity|].
    apply step_ClickRemove in Hs as [_ ->].
    destruct (handleRemove_spec _ _ _ Hlast) as (-> & -> & _).
    split.
    + rewrite Hl, delete_take_drop.
      rewrite take_app_length.
      rewrite drop_ge; [by rewrite app_nil_r|].
      rewrite length_app. simpl. lia.
    + intros Hg. rewrite Hp, Hg. by rewrite last_snoc.
  - exfalso. simpl in Hs. rewrite bool_decide_true in Hs; [discriminate Hs|].
    by eapply lookup_lt_Some.
Qed.

Lemma select_then_remove_restores_witness :
  exists tune w2,
    tunes (hooks firstPageShown) !! 0%nat = Some tune /\
    step (ClickRemove (length (loraTextList firstPageShown)))
      (handleSelect (mkTune "t" "T" []) firstPageShown) = Some w2 /\
    loraTextList w2 = loraTextList firstPageShown /\
    (onRemove (props firstPageShown) = true ->
     last (calls w2) = Some (CallOnRemove (loraText tune))).
Proof.
  exact (select_then_remove_restores firstPageShown 0%nat
           (handleSelect (mkTune "t" "T" []) firstPageShown) eq_refl).
Defined.

Lemma list_ascii_of_string_append a b :
  String.list_ascii_of_string (a +:+ b)
    = String.list_ascii_of_string a ++ String.list_ascii_of_string b.
Proof. induction a as [|c a IH]; simpl; [done | by rewrite IH]. Qed.

Lemma append_inv_tail a b t : a +:+ t = b +:+ t -> a = b.
Proof.
  intros H. apply (f_equal String.list_ascii_of_string) in H.
  rewrite !list_ascii_of_string_append in H.
  apply app_inv_tail in H.
  apply (f_equal String.string_of_list_ascii) in H.
  by rewrite !String.string_of_list_ascii_of_string in H.
Qed.

(** X7: the text made for a selection determines the identifier: two
    tunes get the same text only if they have the same [id]. *)
Theorem loraText_injective t1 t2 :
  loraText t1 = loraText t2 -> id t1 = id t2.
Proof.
  unfold loraText. intros H.
  apply (inj (String.app "<lora:")) in H.
  by apply append_inv_tail in H.
Qed.

Lemma loraText_injective_witness :
  id (mkTune "abc" "One" []) = id (mkTune "abc" "Another" ["a.png"]).
Proof.
  exact (loraText_injective (mkTune "abc" "One" [])
           (mkTune "abc" "Another" ["a.png"]) eq_refl).
Defined.

(** ** Typing *)

Lemma setSearchQuery_twice a b h :
  setSearchQuery b (setSearchQuery a h) = setSearchQuery b h.
Proof. reflexivity. Qed.

Lemma typing_run keys : forall w,
  isOpen (hooks w) = true -> burst (searchQuery (hooks w)) keys ->
  exists w' t,
    run (typing keys) w = Some w' /\
    hooks w' = setSearchQuery (lastTyped (searchQuery (hooks w)) keys) (hooks w) /\
    inflight w' = inflight w /\
    loraTextList w' = loraTextList w /\
    calls w' = calls w /\
    (keys <> [] ->
     timer w' = Some t /\ captured t = searchQuery (hooks w') /\
     clock w' < deadline t).
Proof.
  induction keys as [|[value pause] rest IH]; intros w HO Hb.
  - exists w, (mkTimer 0 ""). split; [reflexivity|].
    split; [by destruct w as [? [] ? ? ? ? ?]|]. by repeat split.
  - destruct Hb as (Hne & [Hp0 Hp] & Hb).
    cbn [typing run]. rewrite step_Change_eq by done.
    cbn [mbind option_bind].
    set (w1 := withTimer _ _).
    assert (step (Elapse pause) w1 = Some (withClock (clock w1 + pause) w1))
      as -> by (simpl; apply Z.leb_le in Hp0; by rewrite Hp0).
    cbn [mbind option_bind].
    set (w2 := withClock _ w1).
    destruct (IH w2) as (w' & t & Hr & Hh & Hi & Hl & Hc & Htm).
    + exact HO.
    + exact Hb.
    + destruct rest as [|key rest'].
      * exists w2, (mkTimer (clock w + DEBOUNCE_MS) value).
        split; [reflexivity|]. split; [reflexivity|].
        split; [reflexivity|]. split; [reflexivity|].
        split; [reflexivity|]. intros _.
        split; [reflexivity|]. split; [reflexivity|]. simpl. lia.
      * exists w', t. split; [exact Hr|].
        split; [by rewrite Hh|]. split; [by rewrite Hi|].
        split; [by rewrite Hl|]. split; [by rewrite Hc|].
        intros _. by apply Htm.
Qed.

(** X8: while a burst of key strokes lasts, every one changing the term
    and every pause shorter than 300 ms, the input follows the keys but
    nothing else happens: the debounced term, the page counter, the result
    list and the requests in flight stay as they were, and after the last
    pause the timer is armed for the last term typed and still cannot
    fire. *)
Theorem typing_burst_is_debounced w keys :
  isOpen (hooks w) = true -> burst (searchQuery (hooks w)) keys ->
  keys <> [] ->
  exists w',
    run (typing keys) w = Some w' /\
    searchQuery (hooks w') = lastTyped (searchQuery (hooks w)) keys /\
    debouncedSearch (hooks w') = debouncedSearch (hooks w) /\
    page (hooks w') = page (hooks w) /\
    tunes (hooks w') = tunes (hooks w) /\
    inflight w' = inflight w /\
    (exists t, timer w' = Some t /\
       captured t = lastTyped (searchQuery (hooks w)) keys) /\
    step TimerFires w' = None.
Proof.
  intros HO Hb Hne.
  destruct (typing_run keys w HO Hb) as (w' & t & Hr & Hh & Hi & _ & _ & Ht).
  destruct (Ht Hne) as (Htm & Hcap & Hlt).
  exists w'. split; [exact Hr|]. rewrite Hh.
  split; [reflexivity|]. split; [reflexivity|]. split; [reflexivity|].
  split; [reflexivity|]. split; [exact Hi|]. split.
  - exists t. split; [exact Htm|]. by rewrite Hcap, Hh.
  - simpl. rewrite Htm. simpl.
    destruct (Z.leb_spec (deadline t) (clock w')); [lia | reflexivity].
Qed.

Lemma typing_burst_is_debounced_witness :
  exists w',
    run (typing [("l", 120); ("lo", 90); ("lor", 299)]) firstPageShown
      = Some w' /\
    searchQuery (hooks w') = "lor" /\
    debouncedSearch (hooks w') = "" /\
    step TimerFires w' = None.
Proof.
  destruct (typing_burst_is_debounced firstPageShown
              [("l", 120); ("lo", 90); ("lor", 299)] eq_refl)
    as (w' & Hr & Hq & Hd & _ & _ & _ & _ & Hf).
  - unfold DEBOUNCE_MS. simpl.
    repeat split; try lia; intros H; discriminate H.
  - intros H; discriminate H.
  - exists w'. split; [exact Hr|]. split; [exact Hq|].
    split; [exact Hd | exact Hf].
Defined.

(** ** The debounce against the fetch *)



Lemma TimerFires_same_query w t :
  timer w = Some t -> deadline t <= clock w ->
  page (hooks w) = 1 -> debouncedSearch (hooks w) = captured t ->
  exists w',
    step TimerFires w = Some w' /\
    tunes (hooks w') = [] /\
    inflight w' = inflight w /\
    loading (hooks w') = loading (hooks w) /\
    timer w' = None.
Proof.
  intros Ht Hd Hp Hq. eexists. split.
  { rewrite (step_TimerFires_eq t) by done.
    rewrite runEffects_same; [reflexivity | reflexivity | |].
    - simpl. by rewrite Hp.
    - simpl. by rewrite Hq. }
  by repeat split.
Qed.

(** X10: when the timer fires with the page counter at 1 and the debounced
    term already equal to the term the timer closed over, the result list
    is emptied and nothing else happens: no effect runs, so no request is
    issued to fill the list again. *)
Theorem timer_without_change_empties_list w t :
  timer w = Some t -> deadline t <= clock w ->
  page (hooks w) = 1 -> debouncedSearch (hooks w) = captured t ->
  exists w',
    step TimerFires w = Some w' /\
    tunes (hooks w') = [] /\
    inflight w' = inflight w /\
    loading (hooks w') = loading (hooks w) /\
    timer w' = None.
Proof. apply TimerFires_same_query. Qed.

Lemma timer_without_change_empties_list_witness :
  exists w',
    step TimerFires (withClock 300 firstPageShown) = Some w' /\
    tunes (hooks w') = [] /\
    inflight w' = [] /\
    loading (hooks w') = false /\
    timer w' = None.
Proof.
  refine (timer_without_change_empties_list (withClock 300 firstPageShown)
            (mkTimer 300 "") eq_refl _ eq_refl eq_refl).
  simpl. lia.
Defined.

(** X11: the first page is lost to the timer armed on mounting: whatever
    the response to the request made on mounting, once it is in and the
    timer fires, 300 ms or more after mounting, the result list is empty,
    nothing is in flight and no timer is armed. *)
Theorem first_page_lost_to_mount_timer p store now response ms :
  DEBOUNCE_MS <= ms ->
  exists w',
    run [Settles 0 (Fulfilled response); Elapse ms; TimerFires]
      (mount p store now) = Some w' /\
    tunes (hooks w') = [] /\
    inflight w' = [] /\
    loading (hooks w') = false /\
    timer w' = None.
Proof.
  intros Hms. unfold DEBOUNCE_MS in Hms.
  cbn [run].
  erewrite step_Settles_eq by reflexivity. cbn [mbind option_bind].
  set (w1 := fetchTunes_resume _ _ _).
  assert (step (Elapse ms) w1 = Some (withClock (clock w1 + ms) w1)) as ->.
  { simpl. destruct (Z.leb_spec 0 ms); [reflexivity | lia]. }
  cbn [mbind option_bind].
  destruct (TimerFires_same_query (withClock (clock w1 + ms) w1)
              (mkTimer (now + DEBOUNCE_MS) ""))
    as (w' & Hs & Ht & Hi & Hl & Htm).
  - reflexivity.
  - simpl. unfold DEBOUNCE_MS. lia.
  - reflexivity.
  - reflexivity.
  - exists w'. split; [by rewrite Hs|]. split; [exact Ht|].
    split; [exact Hi|]. split; [exact Hl | exact Htm].
Qed.

Lemma first_page_lost_to_mount_timer_witness :
  exists w',
    run [Settles 0 (Fulfilled (pageOf 12)); Elapse 300; TimerFires]
      (mount (mkProps false false) [] 0) = Some w' /\
    tunes (hooks w') = [] /\
    inflight w' = [] /\
    loading (hooks w') = false /\
    timer w' = None.
Proof.
  refine (first_page_lost_to_mount_timer (mkProps false false) [] 0
            (pageOf 12) 300 _).
  unfold DEBOUNCE_MS. lia.
Defined.

(** ** Scrolling *)

(** X12: the guards of [handleScroll] read the render, not the world:
    two scroll events near the bottom handled by one render, in which
    [hasMore] is set and [loading] clear, each add 1 to the page counter;
    the render that follows runs the fetch effect once and asks for the
    page two further on, so the page in between is never asked for. *)
Theorem scrolls_from_one_render_add_up w m1 m2 :
  nearBottom m1 = true -> nearBottom m2 = true ->
  hasMore (hooks w) = true -> loading (hooks w) = false ->
  handleScrollOf (hooks w) m1 w = handleScroll m1 w /\
  page (hooks (handleScrollOf (hooks w) m2 (handleScrollOf (hooks w) m1 w)))
    = page (hooks w) + 2 /\
  inflight (handleScrollOf (hooks w) m2 (handleScrollOf (hooks w) m1 w))
    = inflight w /\
  inflight (runEffects (hooks w)
              (handleScrollOf (hooks w) m2 (handleScrollOf (hooks w) m1 w)))
    = inflight w ++ [mkRequest (page (hooks w) + 2) ITEMS_PER_PAGE
                       (debouncedSearch (hooks w))].
Proof.
  intros Hm1 Hm2 HM L. split; [reflexivity|].
  unfold handleScrollOf. rewrite Hm1, Hm2, HM, L. cbn [andb negb].
  split; [simpl; lia|]. split; [reflexivity|].
  rewrite runEffects_fetch; [| reflexivity | left; simpl; lia].
  rewrite fetchTunes_idle by exact L. simpl.
  do 3 f_equal. lia.
Qed.

Lemma scrolls_from_one_render_add_up_witness :
  page (hooks (handleScrollOf (hooks firstPageShown) onTheLine
                 (handleScrollOf (hooks firstPageShown) onTheLine
                    firstPageShown))) = 3 /\
  inflight (runEffects (hooks firstPageShown)
              (handleScrollOf (hooks firstPageShown) onTheLine
                 (handleScrollOf (hooks firstPageShown) onTheLine
                    firstPageShown)))
    = [mkRequest 3 ITEMS_PER_PAGE ""].
Proof.
  destruct (scrolls_from_one_render_add_up firstPageShown onTheLine onTheLine
              eq_refl eq_refl eq_refl eq_refl) as (_ & Hp & _ & Hi).
  split; [exact Hp | exact Hi].
Defined.

(** X13: scrolling after a failure skips the page that failed: in a
    reachable world whose outstanding request is for the current page,
    once that request has failed a scroll near the bottom asks for the
    next page, and the response to it is appended to the list as it was
    before the failure, the error text being cleared. *)
Theorem scroll_after_failure_skips_page w err m response :
  reachable w -> inflight w = [currentRequest w] ->
  isOpen (hooks w) = true -> hasMore (hooks w) = true ->
  nearBottom m = true ->
  exists w2 w3,
    run [Settles 0 (Rejected err); Scroll m] w = Some w2 /\
    inflight w2 = [mkRequest (page (hooks w) + 1) ITEMS_PER_PAGE
                     (debouncedSearch (hooks w))] /\
    step (Settles 0 (Fulfilled response)) w2 = Some w3 /\
    page (hooks w3) = page (hooks w) + 1 /\
    tunes (hooks w3) = tunes (hooks w) ++ response /\
    error (hooks w3) = None.
Proof.
  intros Hw Hi HO HM Hm.
  destruct (reachable_pagesFromOne w Hw) as [Hp _].
  set (w1 := fetchTunes_resume (currentRequest w) (Rejected err)
               (withInflight (delete 0%nat) w)).
  set (r2 := mkRequest (page (hooks w) + 1) ITEMS_PER_PAGE
               (debouncedSearch (hooks w))).
  set (w2 := fetchTunes (withHooks (setPage (fun prev => prev + 1)) w1)).
  assert (inflight w2 = [r2]) as Hi2.
  { subst w2. rewrite fetchTunes_idle by reflexivity.
    cbn. by rewrite Hi. }
  exists w2, (fetchTunes_resume r2 (Fulfilled response)
                (withInflight (delete 0%nat) w2)).
  split.
  { cbn [run]. rewrite (step_Settles_eq 0 (currentRequest w))
      by (by rewrite Hi).
    cbn [mbind option_bind]. fold w1.
    rewrite step_Scroll_eq by exact HO.
    assert (nearBottom m && hasMore (hooks w1) && negb (loading (hooks w1))
            = true) as -> by (cbn; by rewrite Hm, HM).
    reflexivity. }
  split; [exact Hi2|]. split.
  { apply step_Settles_eq. by rewrite Hi2. }
  subst w2. rewrite fetchTunes_idle by reflexivity. cbn.
  split; [reflexivity|]. split; [|reflexivity].
  destruct (Z.eqb_spec (page (hooks w) + 1) 1); [lia | reflexivity].
Qed.

Lemma scroll_after_failure_skips_page_witness :
  exists w2 w3,
    run [Settles 0 (Rejected "503"); Scroll onTheLine]
      (commit (handleOpenChange true) (mount (mkProps false false) [] 0))
      = Some w2 /\
    inflight w2 = [mkRequest 2 ITEMS_PER_PAGE ""] /\
    step (Settles 0 (Fulfilled (pageOf 5))) w2 = Some w3 /\
    page (hooks w3) = 2 /\
    tunes (hooks w3) = pageOf 5 /\
    error (hooks w3) = None.
Proof.
  exact (scroll_after_failure_skips_page
           (commit (handleOpenChange true) (mount (mkProps false false) [] 0))
           "503" onTheLine (pageOf 5)
           (reachable_step (OpenChange true) _ _
              (reachable_mount _ _ _) eq_refl)
           eq_refl eq_refl eq_refl eq_refl).
Defined.

(** ** Counting over a run *)

Lemma step_calls e w w' :
  step e w = Some w' ->
  length (List.filter isConsoleError (calls w'))
    = (length (List.filter isConsoleError (calls w))
       + (if isRejection e then 1 else 0))%nat.
Proof.
  intros Hs. step_cases Hs; unfold commit;
    try match goal with
        | |- context [runEffects ?prev ?x] =>
            destruct (runEffects_outside prev x) as (_ & _ & -> & _)
        end; cbn [isRejection]; rewrite ?Nat.add_0_r; try reflexivity.
  - unfold handleScroll. by destruct (_ && _).
  - unfold fetchTunes. by destruct (loading _).
  - unfold handleSelect, optionalCall. destruct (onSelect _); [|reflexivity].
    cbn. rewrite List.filter_app. cbn. by rewrite app_nil_r.
  - unfold handleRemove, optionalCall. destruct (_ !! _); [|reflexivity].
    destruct (onRemove _); [|reflexivity].
    cbn. rewrite List.filter_app. cbn. by rewrite app_nil_r.
  - destruct o; cbn; [lia|].
    rewrite List.filter_app, length_app. reflexivity.
Qed.

(** X14: every failed fetch is written to the console once and nothing
    else is: over any run, the number of console lines grows by the
    number of promises that were rejected. *)
Theorem console_errors_count_rejections es : forall w w',
  run es w = Some w' ->
  length (List.filter isConsoleError (calls w'))
    = (length (List.filter isConsoleError (calls w))
       + length (List.filter isRejection es))%nat.
Proof.
  induction es as [|e es IH]; intros w w' Hr; simpl in Hr.
  - injection Hr as <-. simpl. lia.
  - destruct (step e w) as [w1|] eqn:Hs; [|discriminate Hr]. simpl in Hr.
    rewrite (IH w1 w' Hr), (step_calls e w w1 Hs).
    cbn [List.filter]. destruct (isRejection e); simpl; lia.
Qed.

Lemma console_errors_count_rejections_witness :
  length (List.filter isConsoleError
            (calls (fetchTunes_resume (mkRequest 1 ITEMS_PER_PAGE "")
                      (Rejected "503")
                      (withInflight (delete 0%nat)
                         (mount (mkProps false false) [] 0)))))
    = 1%nat.
Proof.
  exact (console_errors_count_rejections [Settles 0 (Rejected "503")]
           (mount (mkProps false false) [] 0) _ eq_refl).
Defined.

Lemma step_store_length e w w' :
  step e w = Some w' ->
  (length (loraTextList w') + (if isClickRemove e then 1 else 0)
   = length (loraTextList w) + (if isClickCard e then 1 else 0))%nat.
Proof.
  intros Hs.
  destruct (isClickCard e) eqn:Hc; [|destruct (isClickRemove e) eqn:Hr].
  - destruct e; try discriminate Hc. cbn [isClickRemove].
    apply step_ClickCard in Hs as (tune & _ & ->).
    destruct (handleSelect_spec tune w) as (-> & _ & _).
    rewrite length_app. simpl. lia.
  - destruct e; try discriminate Hr.
    apply step_ClickRemove in Hs as [Hlt ->].
    destruct (lookup_lt_is_Some_2 _ _ Hlt) as [text Ht].
    destruct (handleRemove_spec index text w Ht) as (-> & _ & _).
    rewrite length_delete by eauto. lia.
  - destruct (step_outside_clicks e w w' Hs) as [_ ->]; [lia | done | done].
Qed.

(** X15: the count shown in the label follows the clicks: over any run,
    the length of the shared list is its length before, plus the clicks
    on cards, minus the clicks on remove buttons. *)
Theorem store_length_counts_clicks es : forall w w',
  run es w = Some w' ->
  (labelCount (render w') + length (List.filter isClickRemove es)
   = labelCount (render w) + length (List.filter isClickCard es))%nat.
Proof.
  unfold render. cbn [labelCount].
  induction es as [|e es IH]; intros w w' Hr; simpl in Hr.
  - injection Hr as <-. simpl. lia.
  - destruct (step e w) as [w1|] eqn:Hs; [|discriminate Hr]. simpl in Hr.
    pose proof (IH w1 w' Hr) as H1.
    pose proof (step_store_length e w w1 Hs) as H2.
    cbn [List.filter].
    destruct (isClickRemove e), (isClickCard e); simpl; lia.
Qed.

Lemma store_length_counts_clicks_witness :
  exists w',
    run [ClickCard 0; ClickRemove 0; OpenChange true; ClickCard 3]
      firstPageShown = Some w' /\
    labelCount (render w') = 1%nat.
Proof.
  eexists. split; [reflexivity|].
  pose proof (store_length_counts_clicks
                [ClickCard 0; ClickRemove 0; OpenChange true; ClickCard 3]
                firstPageShown _ eq_refl) as H.
  simpl in H. simpl. lia.
Defined.

(** ** Opening and closing *)

(** X16: closing the dialog only hides it: the request in flight, the
    timer, the search terms, the page counter and the result list are
    kept, and opening the dialog again gives back the world there was
    before it was closed. *)
Theorem close_then_reopen w :
  isOpen (hooks w) = true ->
  exists w1,
    step (OpenChange false) w = Some w1 /\
    w1 = withHooks (setIsOpen false) w /\
    dialogContent (render w1) = None /\
    step (OpenChange true) w1 = Some w.
Proof.
  intros HO. exists (withHooks (setIsOpen false) w).
  assert (forall b w0, step (OpenChange b) w0
                       = Some (withHooks (setIsOpen b) w0)) as Hstep.
  { intros b w0. simpl. f_equal. unfold commit.
    by apply runEffects_same. }
  split; [apply Hstep|]. split; [reflexivity|]. split; [reflexivity|].
  rewrite Hstep. f_equal.
  destruct w as [p h store rs tm now cs]. destruct h. simpl in HO.
  by rewrite HO.
Qed.

Lemma close_then_reopen_witness :
  exists w1,
    step (OpenChange false) firstPageShown = Some w1 /\
    w1 = withHooks (setIsOpen false) firstPageShown /\
    dialogContent (render w1) = None /\
    step (OpenChange true) w1 = Some firstPageShown.
Proof. exact (close_then_reopen firstPageShown eq_refl). Defined.

(** ** More on the timer, the results and the error text *)

(** X17: in every reachable world an armed timer has closed over the term
    now in the input, so whenever the timer fires, the debounced term
    becomes the raw term of that moment, the page counter 1 and the result
    list empty. *)
Theorem timer_holds_raw_term w :
  reachable w ->
  (forall t, timer w = Some t -> captured t = searchQuery (hooks w)) /\
  (forall w', step TimerFires w = Some w' ->
     debouncedSearch (hooks w') = searchQuery (hooks w) /\
     searchQuery (hooks w') = searchQuery (hooks w) /\
     page (hooks w') = 1 /\ tunes (hooks w') = []).
Proof.
  intros Hw. split; [by apply reachable_timerFresh|].
  intros w' Hs.
  destruct (TimerFires_takes_raw_term w w' Hw Hs) as (Hd & Hp & Ht).
  split; [exact Hd|]. split; [|by split].
  simpl in Hs. destruct (timer w) as [t|]; [|discriminate Hs]. simpl in Hs.
  destruct (deadline t <=? clock w); [|discriminate Hs]. injection Hs as <-.
  unfold commit.
  by destruct (runEffects_frame (hooks (withTimer None w))
                 (debounceCallback (captured t) (withTimer None w)))
       as (_ & _ & _ & -> & _).
Qed.

Lemma timer_holds_raw_term_witness :
  captured (mkTimer 300 "") = "".
Proof.
  exact (proj1 (timer_holds_raw_term (mount (mkProps false false) [] 0)
                  (reachable_mount _ _ _))
           (mkTimer 300 "") eq_refl).
Defined.

(** X18: the result list changes only when a response arrives or the
    timer fires, and [hasMore] only when a response arrives: every other
    event, a failed fetch included, leaves both as they were. *)
Theorem results_move_by_response_and_timer e w w' :
  step e w = Some w' ->
  (tunes (hooks w') = tunes (hooks w) \/ e = TimerFires \/
   exists k response, e = Settles k (Fulfilled response)) /\
  (hasMore (hooks w') = hasMore (hooks w) \/
   exists k response, e = Settles k (Fulfilled response)).
Proof.
  intros Hs. step_cases Hs; unfold commit;
    try match goal with
        | |- context [runEffects ?prev ?x] =>
            destruct (runEffects_frame prev x) as (-> & _ & -> & _ & _)
        end; try (by split; left).
  - unfold handleScroll. destruct (_ && _); by split; left.
  - unfold fetchTunes. destruct (loading _); by split; left.
  - unfold handleSelect, optionalCall.
    destruct (onSelect _); by split; left.
  - unfold handleRemove, optionalCall. destruct (_ !! _); [|by split; left].
    destruct (onRemove _); by split; left.
  - split; [right; by left | by left].
  - destruct o; [|by split; left].
    split; right; [right|]; by eexists _, _.
Qed.

Lemma results_move_by_response_and_timer_witness :
  tunes (hooks (commit (handleChange "a") firstPageShown)) = pageOf 12 \/
  Change "a" = TimerFires \/
  exists k response, Change "a" = Settles k (Fulfilled response).
Proof.
  exact (proj1 (results_move_by_response_and_timer (Change "a")
                  firstPageShown _ eq_refl)).
Defined.

Lemma commit_error f w :
  error (hooks (f w)) = error (hooks w) ->
  loading (hooks (f w)) = loading (hooks w) ->
  error (hooks (commit f w)) = error (hooks w) \/
  (loading (hooks w) = false /\ loading (hooks (commit f w)) = true /\
   error (hooks (commit f w)) = None).
Proof.
  intros He Hl. unfold commit, runEffects, fetchEffect.
  set (x1 := if String.eqb _ _ then f w else debounceEffect (f w)).
  assert (hooks x1 = hooks (f w)) as Hh
    by (subst x1; by destruct (String.eqb _ _)).
  destruct (_ && _); [left; by rewrite Hh|].
  unfold fetchTunes. destruct (loading (hooks x1)) eqn:L.
  - left. by rewrite Hh.
  - right. rewrite Hh, Hl in L. by repeat split.
Qed.

(** X19: the life of the error text: an event leaves [error] as it is,
    unless it starts a fetch, which clears it and sets [loading], or it is
    a promise being rejected, which sets the one text. *)
Theorem error_life_cycle e w w' :
  step e w = Some w' ->
  error (hooks w') = error (hooks w) \/
  (loading (hooks w) = false /\ loading (hooks w') = true /\
   error (hooks w') = None) \/
  (exists k err, e = Settles k (Rejected err) /\
     error (hooks w') = Some LOAD_FAILED).
Proof.
  assert (forall f, error (hooks (f w)) = error (hooks w) ->
            loading (hooks (f w)) = loading (hooks w) ->
            error (hooks (commit f w)) = error (hooks w) \/
            (loading (hooks w) = false /\
             loading (hooks (commit f w)) = true /\
             error (hooks (commit f w)) = None) \/
            (exists k err, e = Settles k (Rejected err) /\
               error (hooks (commit f w)) = Some LOAD_FAILED)) as Hc.
  { intros f He Hl. destruct (commit_error f w He Hl) as [H|H];
      [by left | right; by left]. }
  intros Hs. step_cases Hs.
  - by apply Hc.
  - by apply Hc.
  - apply Hc; unfold handleScroll; by destruct (_ && _).
  - unfold commit. destruct (loading (hooks w)) eqn:L.
    + rewrite fetchTunes_loading by exact L.
      rewrite runEffects_same by reflexivity. by left.
    + rewrite fetchTunes_idle by exact L.
      rewrite runEffects_same by reflexivity.
      right; left. by repeat split.
  - apply Hc; unfold handleSelect, optionalCall; by destruct (onSelect _).
  - apply Hc; unfold handleRemove, optionalCall;
      (destruct (_ !! _); [|reflexivity]); by destruct (onRemove _).
  - by left.
  - by apply (Hc (fun w0 => debounceCallback (captured t) (withTimer None w0))).
  - unfold commit. rewrite runEffects_same by (by destruct o).
    destruct o; [by left|]. right; right. by eexists _, _.
Qed.

Lemma error_life_cycle_witness :
  exists w',
    step (Settles 0 (Rejected "503"))
      (mount (mkProps false false) [] 0) = Some w' /\
    (error (hooks w') = None \/
     (loading (hooks (mount (mkProps false false) [] 0)) = false /\
      loading (hooks w') = true /\ error (hooks w') = None) \/
     (exists k err, Settles 0 (Rejected "503") = Settles k (Rejected err) /\
        error (hooks w') = Some LOAD_FAILED)).
Proof.
  eexists. split; [reflexivity|].
  exact (error_life_cycle (Settles 0 (Rejected "503"))
           (mount (mkProps false false) [] 0) _ eq_refl).
Defined.

(** ** The error indicator around a fetch *)

Lemma step_keeps_no_error e w w' :
  step e w = Some w' -> isRejection e = false ->
  error (hooks w) = None -> error (hooks w') = None.
Proof.
  intros Hs Hr He.
  assert (forall f, error (hooks (f w)) = error (hooks w) ->
            loading (hooks (f w)) = loading (hooks w) ->
            error (hooks (commit f w)) = None) as Hc.
  { intros f Hf Hl. destruct (commit_error f w Hf Hl) as [H|(_ & _ & H)];
      [by rewrite H | exact H]. }
  step_cases Hs.
  - by apply Hc.
  - by apply Hc.
  - apply Hc; unfold handleScroll; by destruct (_ && _).
  - unfold commit. destruct (loading (hooks w)) eqn:L.
    + rewrite fetchTunes_loading by exact L.
      by rewrite runEffects_same by reflexivity.
    + rewrite fetchTunes_idle by exact L.
      by rewrite runEffects_same by reflexivity.
  - apply Hc; unfold handleSelect, optionalCall; by destruct (onSelect _).
  - apply Hc; unfold handleRemove, optionalCall;
      (destruct (_ !! _); [|reflexivity]); by destruct (onRemove _).
  - exact He.
  - by apply (Hc (fun w0 => debounceCallback (captured t) (withTimer None w0))).
  - unfold commit. rewrite runEffects_same by (by destruct o).
    destruct o; [exact He | discriminate Hr].
Qed.

(** C10, amended: a call of [fetchTunes] that passes the guard, of the
    latest render or of any other, clears [error] and issues the request
    in the same step; so does a click on the retry button.  A fetch that
    succeeds leaves [error] as it finds it: after a fetch has started,
    [error] stays cleared through every event up to and including the
    success, as long as no promise is rejected on the way. *)
Theorem fetch_start_clears_error :
  (forall w, loading (hooks w) = false ->
     error (hooks (fetchTunes w)) = None /\
     loading (hooks (fetchTunes w)) = true /\
     inflight (fetchTunes w) =
       inflight w ++ [mkRequest (page (hooks w)) ITEMS_PER_PAGE
                        (debouncedSearch (hooks w))]) /\
  (forall w w', loading (hooks w) = false -> step ClickRetry w = Some w' ->
     error (hooks w') = None /\
     inflight w' =
       inflight w ++ [mkRequest (page (hooks w)) ITEMS_PER_PAGE
                        (debouncedSearch (hooks w))]) /\
  (forall render w, loading render = false ->
     error (hooks (fetchTunesOf render w)) = None /\
     loading (hooks (fetchTunesOf render w)) = true) /\
  (forall w k response w',
     step (Settles k (Fulfilled response)) w = Some w' ->
     error (hooks w') = error (hooks w)) /\
  (forall es w w',
     error (hooks w) = None ->
     Forall (fun e => isRejection e = false) es ->
     run es w = Some w' ->
     error (hooks w') = None).
Proof.
  split; [|split; [|split; [|split]]].
  - intros w L. by rewrite fetchTunes_idle.
  - intros w w' L ->%step_ClickRetry. by rewrite fetchTunes_idle.
  - intros render w L. unfold fetchTunesOf. by rewrite L.
  - intros w k response w' (r & Hk & ->)%step_Settles. reflexivity.
  - induction es as [|e es IH]; intros w w' He Hq Hr; simpl in Hr.
    + by injection Hr as <-.
    + destruct (step e w) as [w1|] eqn:Hs; [|discriminate Hr]. simpl in Hr.
      apply Forall_cons in Hq as [Hq Hqs].
      apply (IH w1 w'); [|exact Hqs | exact Hr].
      by apply (step_keeps_no_error e w w1).
Qed.

Lemma fetch_start_clears_error_witness :
  error (hooks (fetchTunes
    (mkWorld (mkProps false false)
       (mkHooks true [] false (Some LOAD_FAILED) 2 true "" "")
       [] [] None 0 []))) = None.
Proof.
  apply (proj1 fetch_start_clears_error). reflexivity.
Defined.

(** C10 as stated fails when two requests are in flight, as after
    mounting under StrictMode: the first is rejected, the second then
    succeeds, and the error text is still there after the successful
    fetch, with nothing in flight and [loading] clear. *)
Lemma error_survives_success :
  exists w',
    run [Settles 0 (Rejected "503"); Settles 0 (Fulfilled (pageOf 12))]
      (mountStrict (mkProps false false) [] 0) = Some w' /\
    tunes (hooks w') = pageOf 12 /\
    error (hooks w') = Some LOAD_FAILED /\
    loading (hooks w') = false /\
    inflight w' = [].
Proof.
  eexists. split; [vm_compute; reflexivity|].
  split; [reflexivity|]. split; [reflexivity|]. split; reflexivity.
Qed.
